(** * Job-Search-Mail-Automation: backend/server.py

    A shallow embedding of the job-search pipeline of [backend/server.py]
    (keyword and skill generators, search fetcher, relevance filter, report
    renderer, mailer, result store and request handlers) together with the
    properties of its specification.

    Conventions.
    - A Python [str] is a [string]; its characters are read as the bytes of
      its UTF-8 encoding.  [lower], the whitespace class and the character
      classes of the regular expression are the ASCII ones, which is exact
      on ASCII text.
    - A Python list is a [list]; [xs[:n]] is [firstn n xs], [xs.extend(ys)]
      is [xs ++ ys] and [xs.append(y)] is [xs ++ [y]].
    - Everything the program asks of its environment (HTTP responses, the
      HTML parser, uuid4, the clocks, the mail relay, the database driver)
      is answered by a [World]; a program is a function from a [State] to
      an [Outcome]: a result or a raised exception, the state left behind
      and the events emitted on the way. *)

From Stdlib Require Import List String Ascii ZArith Bool Arith Lia.
From Stdlib Require Import DecimalString.
From Stdlib Require Import DecimalNat Sorting.Sorted Sorting.Permutation.
Import ListNotations.
Open Scope string_scope.
Open Scope list_scope.

(** String concatenation, Python's [+] on [str]. *)
Infix "+++" := String.append (right associativity, at level 60).

(** ** Python strings *)

Module PyStr.

Definition code (c : ascii) : nat := nat_of_ascii c.

Definition between (lo hi n : nat) : bool :=
  Nat.leb lo n && Nat.leb n hi.

Definition is_upper (c : ascii) : bool := between 65 90 (code c).
Definition is_lower (c : ascii) : bool := between 97 122 (code c).
Definition is_digit (c : ascii) : bool := between 48 57 (code c).
Definition is_alpha (c : ascii) : bool := is_upper c || is_lower c.

(** [str.isspace] on ASCII: TAB, LF, VT, FF, CR, FS, GS, RS, US and SPACE;
    the regular-expression class [\s] on [str] patterns is the same set. *)
Definition is_space (c : ascii) : bool :=
  between 9 13 (code c) || between 28 32 (code c).

Definition lower_char (c : ascii) : ascii :=
  if is_upper c then ascii_of_nat (code c + 32) else c.

(** [s.lower()] *)
Fixpoint lower (s : string) : string :=
  match s with
  | EmptyString => EmptyString
  | String c s' => String (lower_char c) (lower s')
  end.

(** [s.startswith(p)] *)
Fixpoint startswith (p s : string) : bool :=
  match p, s with
  | EmptyString, _ => true
  | String _ _, EmptyString => false
  | String a p', String b s' => Ascii.eqb a b && startswith p' s'
  end.

(** [sub in s]: [sub] occurs in [s] as a contiguous substring. *)
Fixpoint contains (sub s : string) : bool :=
  match s with
  | EmptyString => startswith sub EmptyString
  | String _ s' => startswith sub s || contains sub s'
  end.

(** The longest prefix of [s] whose characters satisfy [p], and the rest. *)
Fixpoint span (p : ascii -> bool) (s : string) : string * string :=
  match s with
  | EmptyString => (EmptyString, EmptyString)
  | String c s' =>
      if p c then let (a, b) := span p s' in (String c a, b)
      else (EmptyString, s)
  end.

Definition is_empty (s : string) : bool :=
  match s with EmptyString => true | String _ _ => false end.

(** [s.lstrip()], [s.rstrip()] and [s.strip()] *)
Definition lstrip (s : string) : string := snd (span is_space s).

Fixpoint rstrip (s : string) : string :=
  match s with
  | EmptyString => EmptyString
  | String c s' =>
      let r := rstrip s' in
      if is_space c && is_empty r then EmptyString else String c r
  end.

Definition strip (s : string) : string := rstrip (lstrip s).

(** [sep.join(xs)] *)
Fixpoint join (sep : string) (xs : list string) : string :=
  match xs with
  | [] => EmptyString
  | [x] => x
  | x :: rest => x +++ sep +++ join sep rest
  end.

(** [str(n)] for a non-negative integer *)
Definition str_of_nat (n : nat) : string :=
  NilEmpty.string_of_uint (Nat.to_uint n).

(** The double quote character, as a one-character string. *)
Definition dq : string := String (ascii_of_nat 34) EmptyString.

End PyStr.

Import PyStr.

(** ** Keyword/Skill Generator *)

Definition BASE_KEYWORDS : list string :=
  [ "Third Party Risk Management";
    "Vendor Risk Assessment";
    "Supplier Risk Analysis";
    "Risk Mitigation";
    "Compliance Management" ].

(** [if cond: xs.extend(extra)] *)
Definition extend_if (cond : bool) (xs extra : list string) : list string :=
  if cond then xs ++ extra else xs.

Definition generate_keywords (job_title query : string) : list string :=
  let base_keywords := BASE_KEYWORDS in
  let base_keywords :=
    extend_if (contains "senior" (lower job_title)) base_keywords
              ["Senior Risk Analyst"; "Risk Leadership"] in
  let base_keywords :=
    extend_if (contains "analyst" (lower job_title)) base_keywords
              ["Risk Analysis"; "Data Analysis"] in
  let base_keywords :=
    extend_if (contains "manager" (lower job_title)) base_keywords
              ["Risk Management"; "Team Leadership"] in
  firstn 5 base_keywords.

Definition BASE_TECHNICAL_SKILLS : list string :=
  [ "GRC Tools (Archer, ServiceNow)";
    "Risk Assessment Frameworks";
    "SQL and Data Analysis";
    "Excel/Advanced Analytics";
    "Regulatory Compliance (SOX, GDPR)" ].

Definition generate_technical_skills (job_title query : string) : list string :=
  let technical_skills := BASE_TECHNICAL_SKILLS in
  let technical_skills :=
    extend_if (contains "senior" (lower job_title)) technical_skills
              ["Risk Modeling"; "Quantitative Analysis"] in
  let technical_skills :=
    extend_if (contains "analyst" (lower job_title)) technical_skills
              ["Python/R"; "Business Intelligence"] in
  firstn 5 technical_skills.

(** ** Data model *)

Record JobListing := {
  id : string;
  job_title : string;
  company_name : string;
  job_link : string;
  location : string;
  keywords : list string;
  technical_skills : list string;
  posted_date : option string;
  source : string;
  scraped_at : Z
}.

Record JobSearchRequest := {
  req_query : string;
  req_location : string;
  req_days_filter : Z
}.

Record JobSearchResult := {
  jobs : list JobListing;
  total_count : Z;
  search_query : string;
  search_date : Z
}.

(** [len(xs)] *)
Definition len {A : Type} (xs : list A) : Z := Z.of_nat (List.length xs).

(** ** Relevance Filter *)

Definition RELEVANCE_KEYWORDS : list string :=
  ["risk"; "compliance"; "vendor"; "supplier"; "third party"; "tprm"].

(** [any(keyword in job.job_title.lower() for keyword in [...])] *)
Definition is_relevant (job : JobListing) : bool :=
  existsb (fun keyword => contains keyword (lower (job_title job)))
          RELEVANCE_KEYWORDS.

(** The loop [for job in jobs: if any(...): relevant_jobs.append(job)],
    with the list being built as its accumulator. *)
Fixpoint relevance_loop (jobs relevant_jobs : list JobListing)
  : list JobListing :=
  match jobs with
  | [] => relevant_jobs
  | job :: rest =>
      relevance_loop rest
        (if is_relevant job then relevant_jobs ++ [job] else relevant_jobs)
  end.

(** The filter as both [daily_job_search_task] and [search_jobs_endpoint]
    write it: [relevant_jobs = []] followed by the loop. *)
Definition filter_relevant (jobs : list JobListing) : list JobListing :=
  relevance_loop jobs [].


(** ** Exceptions, the environment and the effect monad *)

(** An instance of Python's [Exception] class, with its [str(e)]: what the
    library calls of the program raise and what its [except Exception]
    clauses catch. *)
Inductive PyExc := Exception (message : string).

Definition str (e : PyExc) : string :=
  match e with Exception message => message end.

(** [fastapi.HTTPException(status_code=..., detail=...)] *)
Record HTTPException := {
  status_code : Z;
  detail : string
}.

Inductive Result (E A : Type) :=
| Ok (a : A)
| Raise (e : E).

Arguments Ok {E A} a.
Arguments Raise {E A} e.

(** One [div class=g] block of a parsed result page, as the fetcher looks
    at it: [find('h3')] with its text, [find('a')] with its [href]
    attribute (which may be missing) and [find('span', class_='st')] with
    its text. *)
Record ResultBlock := {
  h3 : option string;
  a_tag : option (option string);
  span_st : option string
}.

(** The response of [session.get]: its status and what [response.text()]
    gives. *)
Record Response := {
  status : Z;
  text : Result PyExc string
}.

(** The e-mail message under construction. *)
Record Message := {
  msg_From : string;
  msg_To : string;
  msg_Subject : string;
  msg_html : string
}.

(** The calls into [email.mime] and [smtplib], in the order the mailer
    makes them. *)
Inductive MailCall :=
| MIMEText_attach (msg : Message)
| SMTP_connect (host : string) (port : Z)
| SMTP_starttls
| SMTP_login (user password : string)
| Message_as_string (msg : Message)
| SMTP_sendmail (from_addr to_addr : string) (msg : Message)
| SMTP_quit.

(** The environment.  The first argument of an oracle is the time at which
    it is asked: the number of questions asked before. *)
Record World := {
  (** [session.get(url, headers=headers)] *)
  session_get : nat -> string -> Result PyExc Response;
  (** [BeautifulSoup(html, 'html.parser').find_all('div', class_='g')] *)
  find_all_g : string -> list ResultBlock;
  (** [str(uuid.uuid4())] *)
  uuid4 : nat -> string;
  (** [datetime.utcnow()] *)
  utcnow : nat -> Z;
  (** [datetime.now().strftime('%Y-%m-%d')] *)
  now_strftime : nat -> string;
  (** what pydantic raises when [job_link] is [None] *)
  validation_error : PyExc;
  (** the outcome of a call into the mail libraries: [None] when it returns *)
  mail_lib : nat -> MailCall -> option PyExc;
  (** [EMAIL_PASSWORD]: the value of [GMAIL_APP_PASSWORD] in the process
      environment, or the fallback literal of the source *)
  email_password : string;
  (** the outcome of [db.job_search_results.insert_one] *)
  db_insert_one : nat -> option PyExc;
  (** the outcome of [db.job_search_results.find()...to_list(10)] *)
  db_find : nat -> option PyExc
}.

Inductive Event :=
| EvGet (url : string)
| EvSleep (seconds : Z)
| EvLogInfo (msg : string)
| EvLogError (msg : string)
| EvInsert (doc : JobSearchResult)
| EvMail (call : MailCall).

(** The state a program runs in: the time and the collection
    [db.job_search_results]. *)
Record State := {
  tick : nat;
  store : list JobSearchResult
}.

Record Outcome (E A : Type) := {
  result : Result E A;
  final : State;
  events : list Event
}.

Arguments result {E A} o.
Arguments final {E A} o.
Arguments events {E A} o.

Definition M (E A : Type) : Type := State -> Outcome E A.

Definition ret {E A} (a : A) : M E A :=
  fun s => {| result := Ok a; final := s; events := [] |}.

Definition raise {E A} (e : E) : M E A :=
  fun s => {| result := Raise e; final := s; events := [] |}.

Definition bind {E A B} (m : M E A) (k : A -> M E B) : M E B :=
  fun s =>
    match m s with
    | {| result := Ok a; final := s1; events := evs1 |} =>
        match k a s1 with
        | {| result := r; final := s2; events := evs2 |} =>
            {| result := r; final := s2; events := evs1 ++ evs2 |}
        end
    | {| result := Raise e; final := s1; events := evs1 |} =>
        {| result := Raise e; final := s1; events := evs1 |}
    end.

(** [try: m  except Exception as e: h e].  What [m] did before it raised
    stays done. *)
Definition try_except {E E' A} (m : M E A) (h : E -> M E' A) : M E' A :=
  fun s =>
    match m s with
    | {| result := Ok a; final := s1; events := evs1 |} =>
        {| result := Ok a; final := s1; events := evs1 |}
    | {| result := Raise e; final := s1; events := evs1 |} =>
        match h e s1 with
        | {| result := r; final := s2; events := evs2 |} =>
            {| result := r; final := s2; events := evs1 ++ evs2 |}
        end
    end.

Notation "x <- m ;; k" := (bind m (fun x => k))
  (at level 61, m at next level, right associativity).
Notation "m ;; k" := (bind m (fun _ => k))
  (at level 61, right associativity).

Definition emit {E} (ev : Event) : M E unit :=
  fun s => {| result := Ok tt; final := s; events := [ev] |}.

(** The time of the next question to the environment. *)
Definition next_tick {E} : M E nat :=
  fun s => {| result := Ok (tick s);
              final := {| tick := S (tick s); store := store s |};
              events := [] |}.

Definition get_store {E} : M E (list JobSearchResult) :=
  fun s => {| result := Ok (store s); final := s; events := [] |}.

Definition put_store {E} (docs : list JobSearchResult) : M E unit :=
  fun s => {| result := Ok tt;
              final := {| tick := tick s; store := docs |};
              events := [] |}.

(** [for x in xs: acc = body acc x] *)
Fixpoint for_each {E A B} (body : B -> A -> M E B) (xs : list A) (acc : B)
  : M E B :=
  match xs with
  | [] => ret acc
  | x :: rest => acc' <- body acc x ;; for_each body rest acc'
  end.

Definition log_info {E} (msg : string) : M E unit := emit (EvLogInfo msg).
Definition log_error {E} (msg : string) : M E unit := emit (EvLogError msg).

(** ** Library functions used by the fetcher *)

(** [urllib.parse.quote(s)] with its default [safe='/']. *)
Definition hex_digit (n : nat) : ascii :=
  if Nat.ltb n 10 then ascii_of_nat (48 + n) else ascii_of_nat (55 + n).

Definition quote_keeps (c : ascii) : bool :=
  is_alpha c || is_digit c ||
  existsb (Ascii.eqb c) ["_"; "."; "-"; "~"; "/"]%char.

Fixpoint quote (s : string) : string :=
  match s with
  | EmptyString => EmptyString
  | String c s' =>
      if quote_keeps c then String c (quote s')
      else String "%" (String (hex_digit (code c / 16))
                         (String (hex_digit (code c mod 16)) (quote s')))
  end.

(** The character class [[A-Za-z\s&.]]. *)
Definition company_char (c : ascii) : bool :=
  is_alpha c || is_space c || Ascii.eqb c "&" || Ascii.eqb c ".".

Fixpoint last_char (s : string) : string :=
  match s with
  | EmptyString => EmptyString
  | String c EmptyString => s
  | String _ s' => last_char s'
  end.

(** A match of [at\s+([A-Za-z\s&.]+)] starting at the head of [s], as its
    group 1.  [\s+] first takes the whole run of whitespace and the group
    the longest run of class characters behind it; when that run is empty
    and the whitespace run has two characters or more, [\s+] gives its
    last character back and the group is that character. *)
Definition company_match_here (s : string) : option string :=
  match s with
  | String "a" (String "t" rest) =>
      let (ws, behind) := span is_space rest in
      match ws with
      | EmptyString => None
      | String _ ws' =>
          let (group, _) := span company_char behind in
          if negb (is_empty group) then Some group
          else if negb (is_empty ws') then Some (last_char ws')
          else None
      end
  | _ => None
  end.

(** [re.search(r'at\s+([A-Za-z\s&.]+)', s)]: the leftmost match, as its
    group 1. *)
Fixpoint company_search (s : string) : option string :=
  match company_match_here s with
  | Some group => Some group
  | None =>
      match s with
      | EmptyString => None
      | String _ s' => company_search s'
      end
  end.

(** ** Report Renderer *)

(** The three literal parts of the opening f-string of [html_content],
    around the date and the count. *)
Definition REPORT_HEAD_1 : string :=
"
        <!DOCTYPE html>
        <html>
        <head>
            <style>
                table {
                    border-collapse: collapse;
                    width: 100%;
                    margin: 20px 0;
                }
                th, td {
                    border: 1px solid #ddd;
                    padding: 12px;
                    text-align: left;
                }
                th {
                    background-color: #f2f2f2;
                    font-weight: bold;
                }
                tr:nth-child(even) {
                    background-color: #f9f9f9;
                }
                .keywords, .skills {
                    font-size: 12px;
                    color: #666;
                }
            </style>
        </head>
        <body>
            <h2>TPRM Job Search Results - ".

Definition REPORT_HEAD_2 : string :=
"</h2>
            <p>Found ".

Definition REPORT_HEAD_3 : string :=
" relevant Third Party Risk Assessment jobs in Bangalore, India & Remote positions</p>
            
            <table>
                <tr>
                    <th>Job Title</th>
                    <th>Company Name</th>
                    <th>Direct Company Job Link</th>
                    <th>5 Role-Related Keywords</th>
                    <th>5 Technical Skills</th>
                </tr>
        ".

Definition report_head (today : string) (count : nat) : string :=
  REPORT_HEAD_1 +++ today +++ REPORT_HEAD_2 +++ str_of_nat count +++
  REPORT_HEAD_3.

(** The f-string appended for one posting. *)
Definition report_row (job : JobListing) : string :=
  let keywords_str := join ", " (firstn 5 (keywords job)) in
  let skills_str := join ", " (firstn 5 (technical_skills job)) in
  "
                <tr>
                    <td>" +++
  job_title job +++
  "</td>
                    <td>" +++
  company_name job +++
  "</td>
                    <td><a href=" +++
  dq +++
  job_link job +++
  dq +++
  " target=" +++
  dq +++
  "_blank" +++
  dq +++
  ">View Job</a></td>
                    <td class=" +++
  dq +++
  "keywords" +++
  dq +++
  ">" +++
  keywords_str +++
  "</td>
                    <td class=" +++
  dq +++
  "skills" +++
  dq +++
  ">" +++
  skills_str +++
  "</td>
                </tr>
            ".

Definition REPORT_TAIL : string :=
"
            </table>
            
            <p><strong>Note:</strong> Jobs are filtered for recent postings (last 24 hours) and focus on Third Party Risk, Vendor Risk, and Supplier Risk Assessment roles in Bangalore and remote positions for product companies.</p>
            
            <p>Best regards,<br>
            Automated Job Search System</p>
        </body>
        </html>
        ".

(** [html_content], built as the mailer builds it: the head, one row
    appended per posting, the tail appended last. *)
Definition render_report (today : string) (jobs : list JobListing) : string :=
  let html_content := report_head today (List.length jobs) in
  let html_content :=
    fold_left (fun html job => html +++ report_row job) jobs html_content in
  html_content +++ REPORT_TAIL.

(** ** The program *)

Definition EMAIL_ADDRESS : string := "ananya4bh@gmail.com".
Definition EMAIL_SUBJECT : string := "TPRM jobs for today".

(** The six query templates of [search_jobs_google]; only the first one
    uses the caller's query. *)
Definition search_queries (query : string) : list string :=
  [ dq +++ query +++ dq +++
    " jobs in Bangalore India OR remote site:linkedin.com OR site:naukri.com OR site:indeed.com";
    dq +++ "Third Party Risk" +++ dq +++ " OR " +++ dq +++ "Vendor Risk" +++
    dq +++ " OR " +++ dq +++ "Supplier Risk" +++ dq +++
    " jobs Bangalore India OR remote";
    dq +++ "TPRM" +++ dq +++ " OR " +++ dq +++ "Third Party Risk Management" +++
    dq +++ " jobs Bangalore OR remote product company";
    dq +++ "Risk Assessment" +++ dq +++
    " analyst jobs Bangalore India OR remote 6 years experience";
    dq +++ "Third Party Risk" +++ dq +++ " remote jobs India product company";
    dq +++ "Vendor Risk Management" +++ dq +++
    " remote OR Bangalore India jobs" ].

(** The company name of a result block: the sentinel, replaced by the
    stripped group when the description snippet exists and matches. *)
Definition extract_company_name (desc_elem : option string) : string :=
  let company_name := "Company Name Not Found" in
  match desc_elem with
  | Some desc_text =>
      match company_search desc_text with
      | Some group => strip group
      | None => company_name
      end
  | None => company_name
  end.

Section Program.

Variable w : World.

(** [JobListing(...)]: the two default factories are run and the fields
    validated; [job_link=None] is refused. *)
Definition new_JobListing
  (title company : string) (link : option string) (loc : string)
  (kws skills : list string) (posted : option string) (src : string)
  : M PyExc JobListing :=
  t_id <- next_tick ;;
  t_at <- next_tick ;;
  match link with
  | None => raise (validation_error w)
  | Some href =>
      ret {| id := uuid4 w t_id;
             job_title := title;
             company_name := company;
             job_link := href;
             location := loc;
             keywords := kws;
             technical_skills := skills;
             posted_date := posted;
             source := src;
             scraped_at := utcnow w t_at |}
  end.

(** [async with session.get(google_url, headers=headers) as response] *)
Definition get (url : string) : M PyExc Response :=
  t <- next_tick ;;
  emit (EvGet url) ;;
  match session_get w t url with
  | Ok response => ret response
  | Raise e => raise e
  end.

(** [await response.text()] *)
Definition response_text (response : Response) : M PyExc string :=
  match text response with
  | Ok html => ret html
  | Raise e => raise e
  end.

(** [await asyncio.sleep(seconds)] *)
Definition sleep (seconds : Z) : M PyExc unit := emit (EvSleep seconds).

(** The body of [for result in job_results[:10]], with its own
    [try]/[except]: [jobs] is the list built so far.  The only statement
    that changes [jobs] is the last one of the [try] block, so the handler
    sees the list as it was. *)
Definition parse_result (query : string) (jobs : list JobListing)
  (result : ResultBlock) : M PyExc (list JobListing) :=
  try_except
    (match h3 result, a_tag result with
     | Some title_text, Some href =>
         let company := extract_company_name (span_st result) in
         let kws := generate_keywords title_text query in
         let skills := generate_technical_skills title_text query in
         job <- new_JobListing title_text company href
                  "Bangalore, India / Remote" kws skills
                  (Some "Recent (24 hours)") "google_search" ;;
         ret (jobs ++ [job])
     | _, _ => ret jobs
     end)
    (fun e =>
       log_error ("Error parsing job result: " +++ str e) ;;
       ret jobs).

(** The body of [for search_query in search_queries], with its own
    [try]/[except].  Whatever raises in the [try] block ([session.get],
    [response.text()]) does so before the inner loop starts, so the handler
    sees [jobs] as it was. *)
Definition fetch_template (query : string) (jobs : list JobListing)
  (search_query : string) : M PyExc (list JobListing) :=
  try_except
    (let google_url :=
       "https://www.google.com/search?q=" +++ quote search_query +++
       "&tbm=nws" in
     response <- get google_url ;;
     if Z.eqb (status response) 200 then
       html <- response_text response ;;
       let job_results := find_all_g w html in
       jobs' <- for_each (parse_result query) (firstn 10 job_results) jobs ;;
       sleep 1 ;;
       ret jobs'
     else ret jobs)
    (fun e =>
       log_error ("Error searching jobs: " +++ str e) ;;
       ret jobs).

Definition search_jobs_google (query location : string) (days_filter : Z)
  : M PyExc (list JobListing) :=
  for_each (fetch_template query) (search_queries query) [].

(** *** Mailer *)

Definition EMAIL_PASSWORD : string := email_password w.

(** A call into [email.mime] or [smtplib]: it returns or raises. *)
Definition mail_call (call : MailCall) : M PyExc unit :=
  t <- next_tick ;;
  emit (EvMail call) ;;
  match mail_lib w t call with
  | Some e => raise e
  | None => ret tt
  end.

(** The [try] block of [send_email_report]. *)
Definition send_email_try (jobs : list JobListing) (recipient_email : string)
  : M PyExc bool :=
  t <- next_tick ;;
  let html_content := render_report (now_strftime w t) jobs in
  let msg := {| msg_From := EMAIL_ADDRESS;
                msg_To := recipient_email;
                msg_Subject := EMAIL_SUBJECT;
                msg_html := html_content |} in
  mail_call (MIMEText_attach msg) ;;
  mail_call (SMTP_connect "smtp.gmail.com" 587) ;;
  mail_call SMTP_starttls ;;
  mail_call (SMTP_login EMAIL_ADDRESS EMAIL_PASSWORD) ;;
  mail_call (Message_as_string msg) ;;
  mail_call (SMTP_sendmail EMAIL_ADDRESS recipient_email msg) ;;
  mail_call SMTP_quit ;;
  log_info ("Email sent successfully to " +++ recipient_email) ;;
  ret true.

Definition send_email_report (jobs : list JobListing)
  (recipient_email : string) : M PyExc bool :=
  try_except
    (send_email_try jobs recipient_email)
    (fun e =>
       log_error ("Failed to send email: " +++ str e) ;;
       ret false).

(** *** Result Store *)

(** [await db.job_search_results.insert_one(doc)]: the collection only
    grows, at its end. *)
Definition insert_one (doc : JobSearchResult) : M PyExc unit :=
  t <- next_tick ;;
  match db_insert_one w t with
  | Some e => raise e
  | None =>
      docs <- get_store ;;
      put_store (docs ++ [doc]) ;;
      emit (EvInsert doc)
  end.

(** Insertion into a list sorted by [search_date], latest first; among
    records of one date the inserted one comes first, so that sorting keeps
    records of one date in the order of the collection. *)
Fixpoint insert_by_date (doc : JobSearchResult) (sorted : list JobSearchResult)
  : list JobSearchResult :=
  match sorted with
  | [] => [doc]
  | d :: rest =>
      if Z.leb (search_date d) (search_date doc) then doc :: sorted
      else d :: insert_by_date doc rest
  end.

(** [.sort("search_date", -1)] *)
Definition sort_by_date_desc (docs : list JobSearchResult)
  : list JobSearchResult :=
  fold_right insert_by_date [] docs.

(** [await db.job_search_results.find().sort("search_date", -1).limit(10).to_list(10)] *)
Definition find_recent : M PyExc (list JobSearchResult) :=
  t <- next_tick ;;
  match db_find w t with
  | Some e => raise e
  | None =>
      docs <- get_store ;;
      ret (firstn 10 (sort_by_date_desc docs))
  end.

(** [datetime.utcnow()] *)
Definition now_utc : M PyExc Z :=
  t <- next_tick ;;
  ret (utcnow w t).

(** *** The pipeline *)

(** The [try] block of [daily_job_search_task]. *)
Definition daily_job_search_try : M PyExc unit :=
  log_info "Starting daily job search task..." ;;
  jobs <- search_jobs_google "Third Party Risk Assessment"
            "Bangalore India OR remote" 7 ;;
  let relevant_jobs := filter_relevant jobs in
  now <- now_utc ;;
  let job_search_result :=
    {| jobs := relevant_jobs;
       total_count := len relevant_jobs;
       search_query := "Third Party Risk Assessment";
       search_date := now |} in
  insert_one job_search_result ;;
  _ <- send_email_report relevant_jobs EMAIL_ADDRESS ;;
  log_info ("Daily job search completed. Found " +++
            str_of_nat (List.length relevant_jobs) +++ " relevant jobs.").

Definition daily_job_search_task : M PyExc unit :=
  try_except
    daily_job_search_try
    (fun e => log_error ("Daily job search task failed: " +++ str e)).

(** *** Request handlers *)

(** [POST /search-jobs] *)
Definition search_jobs_endpoint (request : JobSearchRequest)
  : M HTTPException JobSearchResult :=
  try_except
    (jobs <- search_jobs_google (req_query request) (req_location request)
               (req_days_filter request) ;;
     let relevant_jobs := filter_relevant jobs in
     now <- now_utc ;;
     ret {| jobs := relevant_jobs;
            total_count := len relevant_jobs;
            search_query := req_query request;
            search_date := now |})
    (fun e =>
       log_error ("Job search failed: " +++ str e) ;;
       raise {| status_code := 500; detail := str e |}).

(** [GET /job-results].  The stored documents are the dictionaries of
    [JobSearchResult] values; the list comprehension reads each of them
    back into a [JobSearchResult]. *)
Definition get_job_results : M HTTPException (list JobSearchResult) :=
  try_except
    (results <- find_recent ;;
     ret (map (fun result => result) results))
    (fun e =>
       log_error ("Failed to get job results: " +++ str e) ;;
       raise {| status_code := 500; detail := str e |}).

(** [POST /trigger-manual-search] *)
Definition trigger_manual_search : M HTTPException string :=
  try_except
    (daily_job_search_task ;;
     ret "Manual job search completed successfully")
    (fun e =>
       log_error ("Manual job search failed: " +++ str e) ;;
       raise {| status_code := 500; detail := str e |}).

End Program.

(** What the framework answers for a handler's outcome: status 200 with
    the returned value, or the status and detail of the [HTTPException]. *)
Inductive HTTPResponse (A : Type) :=
| Response200 (body : A)
| ResponseError (code : Z) (message : string).

Arguments Response200 {A} body.
Arguments ResponseError {A} code message.

Definition respond {A} (r : Result HTTPException A) : HTTPResponse A :=
  match r with
  | Ok body => Response200 body
  | Raise e => ResponseError (status_code e) (detail e)
  end.

Definition http_status {A} (r : HTTPResponse A) : Z :=
  match r with
  | Response200 _ => 200
  | ResponseError code _ => code
  end.

(** ** Observations on runs *)

Definition is_get (ev : Event) : bool :=
  match ev with EvGet _ => true | _ => false end.

Definition is_sleep (ev : Event) : bool :=
  match ev with EvSleep _ => true | _ => false end.

Definition is_insert (ev : Event) : bool :=
  match ev with EvInsert _ => true | _ => false end.

Definition is_mail (ev : Event) : bool :=
  match ev with EvMail _ => true | _ => false end.

(** The documents written to the store during a run, in order. *)
Fixpoint inserted_docs (evs : list Event) : list JobSearchResult :=
  match evs with
  | [] => []
  | EvInsert doc :: rest => doc :: inserted_docs rest
  | _ :: rest => inserted_docs rest
  end.

(** The invariant of a Search Result. *)
Definition count_ok (r : JobSearchResult) : Prop :=
  total_count r = len (jobs r).


(** After each request, a sleep of one second comes before the next
    request (or the end of the run). *)
Fixpoint pause_follows_each_get (evs : list Event) : bool :=
  match evs with
  | [] => true
  | EvGet _ :: rest =>
      (fix slept (l : list Event) : bool :=
         match l with
         | [] => false
         | EvGet _ :: _ => false
         | EvSleep seconds :: _ => Z.eqb seconds 1
         | _ :: l' => slept l'
         end) rest
      && pause_follows_each_get rest
  | _ :: rest => pause_follows_each_get rest
  end.

Definition initial_state : State := {| tick := 0; store := [] |}.

(** The world with another mail relay. *)
Definition with_mail_lib (w : World) (relay : nat -> MailCall -> option PyExc)
  : World :=
  {| session_get := session_get w;
     find_all_g := find_all_g w;
     uuid4 := uuid4 w;
     utcnow := utcnow w;
     now_strftime := now_strftime w;
     validation_error := validation_error w;
     mail_lib := relay;
     email_password := email_password w;
     db_insert_one := db_insert_one w;
     db_find := db_find w |}.

(** The world with another search provider. *)
Definition with_session_get (w : World)
  (provider : nat -> string -> Result PyExc Response) : World :=
  {| session_get := provider;
     find_all_g := find_all_g w;
     uuid4 := uuid4 w;
     utcnow := utcnow w;
     now_strftime := now_strftime w;
     validation_error := validation_error w;
     mail_lib := mail_lib w;
     email_password := email_password w;
     db_insert_one := db_insert_one w;
     db_find := db_find w |}.

(** *** Test doubles *)

(** Every request is answered 404; the relay and the database work. *)
Definition world_404 : World :=
  {| session_get := fun _ _ => Ok {| status := 404; text := Ok "" |};
     find_all_g := fun _ => [];
     uuid4 := fun t => "uuid-" +++ str_of_nat t;
     utcnow := fun t => Z.of_nat t;
     now_strftime := fun _ => "2024-01-01";
     validation_error := Exception "1 validation error for JobListing";
     mail_lib := fun _ _ => None;
     email_password := "app-password";
     db_insert_one := fun _ => None;
     db_find := fun _ => None |}.

(** Every request raises. *)
Definition world_unreachable : World :=
  with_session_get world_404
    (fun _ _ => Raise (Exception "Cannot connect to host")).

(** A relay stub that raises on [login]. *)
Definition world_login_raises : World :=
  with_mail_lib world_404
    (fun _ call =>
       match call with
       | SMTP_login _ _ => Some (Exception "Username and Password not accepted")
       | _ => None
       end).

(** A search endpoint that answers the first request with a page of two
    well-formed result blocks and every later request with 404. *)
Definition two_blocks : list ResultBlock :=
  [ {| h3 := Some "Senior Risk Analyst";
       a_tag := Some (Some "https://example.com/job1");
       span_st := Some "Senior Risk Analyst at Tech Corp India" |};
    {| h3 := Some "Graphic Designer";
       a_tag := Some (Some "https://example.com/job2");
       span_st := None |} ].

Definition world_two_blocks : World :=
  {| session_get := fun t _ =>
       match t with
       | O => Ok {| status := 200; text := Ok "page" |}
       | _ => Ok {| status := 404; text := Ok "" |}
       end;
     find_all_g := fun _ => two_blocks;
     uuid4 := fun t => "uuid-" +++ str_of_nat t;
     utcnow := fun t => Z.of_nat t;
     now_strftime := fun _ => "2024-01-01";
     validation_error := Exception "1 validation error for JobListing";
     mail_lib := fun _ _ => None;
     email_password := "app-password";
     db_insert_one := fun _ => None;
     db_find := fun _ => None |}.

(** ** Predicates on programs *)

(** Every event a program emits satisfies [P]. *)
Definition emits {E A} (P : Event -> Prop) (m : M E A) : Prop :=
  forall s, Forall P (events (m s)).

(** A program leaves the store as it found it. *)
Definition keeps_store {E A} (m : M E A) : Prop :=
  forall s, store (final (m s)) = store s.

(** A program returns, whatever the state it starts in. *)
Definition never_raises {E A} (m : M E A) : Prop :=
  forall s, exists a, result (m s) = Ok a.

(** The events of the fetcher: requests, pauses and error logs. *)
Definition fetch_event (ev : Event) : Prop :=
  is_insert ev = false /\ is_mail ev = false.

(** The events of the mailer: calls into the mail libraries and logs. *)
Definition mailer_event (ev : Event) : Prop :=
  is_insert ev = false /\ is_get ev = false /\ is_sleep ev = false.

(** ** Further observations on the fetcher *)

(** The URL requested for one query template. *)
Definition google_url (search_query : string) : string :=
  "https://www.google.com/search?q=" +++ quote search_query +++ "&tbm=nws".

Definition is_log_error (ev : Event) : bool :=
  match ev with EvLogError _ => true | _ => false end.

(** The posting built from a result block with title, link and optional
    description snippet, when the construction starts at time [t]. *)
Definition fetched_job (w : World) (query title href : string)
  (desc : option string) (t : nat) : JobListing :=
  {| id := uuid4 w t;
     job_title := title;
     company_name := extract_company_name desc;
     job_link := href;
     location := "Bangalore, India / Remote";
     keywords := generate_keywords title query;
     technical_skills := generate_technical_skills title query;
     posted_date := Some "Recent (24 hours)";
     source := "google_search";
     scraped_at := utcnow w (S t) |}.

(** The fields every fetched posting shares. *)
Definition fetched_fields (job : JobListing) : Prop :=
  location job = "Bangalore, India / Remote" /\
  source job = "google_search" /\
  posted_date job = Some "Recent (24 hours)" /\
  keywords job = BASE_KEYWORDS /\
  technical_skills job = BASE_TECHNICAL_SKILLS.

(** A search provider that answers every request 200 with a readable
    page of two result blocks. *)
Definition world_all_200 : World :=
  with_session_get world_two_blocks
    (fun _ _ => Ok {| status := 200; text := Ok "page" |}).

(** The identifiers of the postings are all different, each drawn from
    [uuid4] at a time before the current one. *)
Definition ids_fresh (w : World) (jobs : list JobListing) (s : State)
  : Prop :=
  NoDup (map id jobs) /\
  Forall (fun job => exists t, t < tick s /\ id job = uuid4 w t) jobs.

(** The title and link of a result block that has both. *)
Definition complete_block (block : ResultBlock) : list (string * string) :=
  match h3 block, a_tag block with
  | Some title, Some (Some href) => [(title, href)]
  | _, _ => []
  end.

(** A result block with a title and a link element without [href]. *)
Definition broken_block (block : ResultBlock) : bool :=
  match h3 block, a_tag block with
  | Some _, Some None => true
  | _, _ => false
  end.

(** ** Further observations on strings and the report *)


(** [s] does not start, or end, with whitespace. *)
Definition starts_clean (s : string) : bool :=
  match s with
  | EmptyString => true
  | String c _ => negb (is_space c)
  end.

Definition ends_clean (s : string) : bool := starts_clean (last_char s).

(** The rows of the table, one after the other. *)
Definition report_rows (jobs : list JobListing) : string :=
  fold_right (fun job rest => report_row job +++ rest) EmptyString jobs.

(** Two postings that differ in what a row does not show: identifier,
    location, source, dates and the keywords and skills behind the
    fifth. *)
Definition sample_posting : JobListing :=
  {| id := "id-1";
     job_title := "Vendor Risk Manager";
     company_name := "Product Company Ltd";
     job_link := "https://example.com/job";
     location := "Bangalore, India / Remote";
     keywords := BASE_KEYWORDS;
     technical_skills := BASE_TECHNICAL_SKILLS;
     posted_date := Some "Recent (24 hours)";
     source := "google_search";
     scraped_at := 1 |}.

Definition sample_posting_longer : JobListing :=
  {| id := "id-2";
     job_title := "Vendor Risk Manager";
     company_name := "Product Company Ltd";
     job_link := "https://example.com/job";
     location := "Remote";
     keywords := BASE_KEYWORDS ++ ["Risk Management"; "Team Leadership"];
     technical_skills := BASE_TECHNICAL_SKILLS ++ ["Risk Modeling"];
     posted_date := None;
     source := "briansjobsearch";
     scraped_at := 2 |}.

(** ** Further observations on the mailer *)

(** The calls into the mail libraries during a run, in order. *)
Fixpoint mail_calls (evs : list Event) : list MailCall :=
  match evs with
  | [] => []
  | EvMail call :: rest => call :: mail_calls rest
  | _ :: rest => mail_calls rest
  end.

(** The message the mailer composes at time [t]. *)
Definition composed_message (w : World) (jobs : list JobListing)
  (recipient_email : string) (t : nat) : Message :=
  {| msg_From := EMAIL_ADDRESS;
     msg_To := recipient_email;
     msg_Subject := EMAIL_SUBJECT;
     msg_html := render_report (now_strftime w t) jobs |}.

(** The calls of a delivery that goes through. *)
Definition mail_sequence (w : World) (msg : Message)
  (recipient_email : string) : list MailCall :=
  [ MIMEText_attach msg;
    SMTP_connect "smtp.gmail.com" 587;
    SMTP_starttls;
    SMTP_login EMAIL_ADDRESS (EMAIL_PASSWORD w);
    Message_as_string msg;
    SMTP_sendmail EMAIL_ADDRESS recipient_email msg;
    SMTP_quit ].

(** The calls made when [calls] are made one after the other from time
    [t] until one raises, and whether all of them returned. *)
Fixpoint attempted (w : World) (t : nat) (calls : list MailCall)
  : list MailCall * bool :=
  match calls with
  | [] => ([], true)
  | call :: rest =>
      match mail_lib w t call with
      | Some _ => ([call], false)
      | None =>
          let (made, all_returned) := attempted w (S t) rest in
          (call :: made, all_returned)
      end
  end.

(** ** Further observations on the store *)

(** [a] may stand before [b] in a list ordered latest first. *)
Definition newer_first (a b : JobSearchResult) : Prop :=
  (search_date b <= search_date a)%Z.

(** A record of an empty run at a given date. *)
Definition empty_run (date : Z) : JobSearchResult :=
  {| jobs := [];
     total_count := 0;
     search_query := "Third Party Risk Assessment";
     search_date := date |}.

Definition sample_store : list JobSearchResult :=
  [empty_run 5; empty_run 9; empty_run 7].

(** A database driver that raises on every operation. *)
Definition world_db_down : World :=
  {| session_get := session_get world_404;
     find_all_g := find_all_g world_404;
     uuid4 := uuid4 world_404;
     utcnow := utcnow world_404;
     now_strftime := now_strftime world_404;
     validation_error := validation_error world_404;
     mail_lib := mail_lib world_404;
     email_password := email_password world_404;
     db_insert_one := fun _ => Some (Exception "connection refused");
     db_find := fun _ => Some (Exception "connection refused") |}.

(** ** The test-email handler *)

(** [POST /send-test-email].  The [HTTPException] raised in the [try]
    block when the mailer returns [False] is an [Exception]: the handler
    catches it like any other and reads only its [str(e)], which depends
    on the version of the framework and is given by [str_http]. *)
Definition send_test_email (w : World) (str_http : HTTPException -> string)
  : M HTTPException string :=
  try_except
    (job1 <- new_JobListing w
               "Senior Third Party Risk Analyst" "Tech Corp India"
               (Some "https://example.com/job1") "Bangalore, India / Remote"
               ["Third Party Risk Management"; "Vendor Risk Assessment";
                "Compliance"; "Risk Mitigation"; "GRC"]
               ["GRC Tools"; "SQL"; "Risk Frameworks"; "Excel";
                "Regulatory Compliance"]
               None "briansjobsearch" ;;
     job2 <- new_JobListing w
               "Vendor Risk Manager - Remote" "Product Company Ltd"
               (Some "https://example.com/job2") "Remote / Bangalore, India"
               ["Vendor Risk"; "Supplier Management"; "Risk Assessment";
                "Compliance"; "Due Diligence"]
               ["ServiceNow"; "Risk Modeling"; "Python";
                "Business Intelligence"; "SOX Compliance"]
               None "briansjobsearch" ;;
     let sample_jobs := [job1; job2] in
     success <- send_email_report w sample_jobs EMAIL_ADDRESS ;;
     if success : bool then ret "Test email sent successfully"
     else raise (Exception
                   (str_http {| status_code := 500;
                                detail := "Failed to send test email" |})))
    (fun e =>
       log_error ("Test email failed: " +++ str e) ;;
       raise {| status_code := 500; detail := str e |}).

(** [GET /] *)
Definition root : M HTTPException (string * string) :=
  ret ("TPRM Job Search Automation System", "running").

(** ** backend_test.py *)




(** The verdict of [test_manual_search_trigger] on a response: status 200
    and a message containing "completed". *)
Definition test_manual_search_trigger (response : HTTPResponse string)
  : bool :=
  match response with
  | Response200 message => contains "completed" (lower message)
  | ResponseError _ _ => false
  end.

(** The verdict of [test_email_functionality] on a response: status 200
    and a message containing "successfully". *)
Definition test_email_functionality (response : HTTPResponse string) : bool :=
  match response with
  | Response200 message => contains "successfully" (lower message)
  | ResponseError _ _ => false
  end.

(** The verdict of [test_job_results_storage] on a response: status 200;
    the records of the response model always have the four fields the
    test looks for. *)
Definition test_job_results_storage
  (response : HTTPResponse (list JobSearchResult)) : bool :=
  match response with
  | Response200 _ => true
  | ResponseError _ _ => false
  end.

(** * Properties *)

(** ** Substring test *)



(** ** Relevance Filter *)


Lemma relevance_loop_filter (jobs acc : list JobListing) :
  relevance_loop jobs acc = acc ++ filter is_relevant jobs.
Proof.
  revert acc; induction jobs as [|job rest IH]; intros acc; simpl.
  - now rewrite app_nil_r.
  - rewrite IH. destruct (is_relevant job); [| reflexivity].
    now rewrite <- app_assoc.
Qed.

Lemma filter_relevant_filter (jobs : list JobListing) :
  filter_relevant jobs = filter is_relevant jobs.
Proof. unfold filter_relevant. now rewrite relevance_loop_filter. Qed.

Lemma filter_idem {A} (f : A -> bool) (xs : list A) :
  filter f (filter f xs) = filter f xs.
Proof.
  induction xs as [|x xs IH]; simpl; [reflexivity |].
  destruct (f x) eqn:E; simpl; [rewrite E, IH |]; auto.
Qed.

(** C5. The Relevance Filter is idempotent: filtering its own output gives
    that output back. *)
Theorem relevance_filter_idempotent (jobs : list JobListing) :
  filter_relevant (filter_relevant jobs) = filter_relevant jobs.
Proof. rewrite !filter_relevant_filter. apply filter_idem. Qed.


(** ** Keyword/Skill Generator *)

Lemma firstn_5_extend (base extra : list string) (cond : bool) :
  List.length base = 5 ->
  firstn 5 (extend_if cond base extra) = base.
Proof.
  intros H. unfold extend_if. destruct cond.
  - rewrite firstn_app, <- H, firstn_all, Nat.sub_diag. simpl.
    apply app_nil_r.
  - rewrite <- H. apply firstn_all.
Qed.

Lemma firstn_extend_more (n : nat) (xs extra : list string) (cond : bool) :
  n <= List.length xs ->
  firstn n (extend_if cond xs extra) = firstn n xs.
Proof.
  intros H. unfold extend_if. destruct cond; [| reflexivity].
  rewrite firstn_app. replace (n - List.length xs) with 0 by lia.
  simpl. apply app_nil_r.
Qed.

Lemma extend_if_length (cond : bool) (xs extra : list string) :
  List.length xs <= List.length (extend_if cond xs extra).
Proof. unfold extend_if. destruct cond; [rewrite length_app |]; lia. Qed.

Lemma generate_keywords_base (job_title query : string) :
  generate_keywords job_title query = BASE_KEYWORDS.
Proof.
  unfold generate_keywords.
  rewrite firstn_extend_more.
  2:{ eapply Nat.le_trans; [| apply extend_if_length].
      eapply Nat.le_trans; [| apply extend_if_length]. simpl. lia. }
  rewrite firstn_extend_more.
  2:{ eapply Nat.le_trans; [| apply extend_if_length]. simpl. lia. }
  now apply firstn_5_extend.
Qed.

Lemma generate_technical_skills_base (job_title query : string) :
  generate_technical_skills job_title query = BASE_TECHNICAL_SKILLS.
Proof.
  unfold generate_technical_skills.
  rewrite firstn_extend_more.
  2:{ eapply Nat.le_trans; [| apply extend_if_length]. simpl. lia. }
  now apply firstn_5_extend.
Qed.

(** C9. Whatever the title and the query, the Keyword Generator returns
    the five base keywords and the Skill Generator the five base skills:
    the terms appended for the title are cut off by the final slice. *)
Theorem generators_constant (job_title query : string) :
  generate_keywords job_title query = BASE_KEYWORDS /\
  generate_technical_skills job_title query = BASE_TECHNICAL_SKILLS /\
  List.length BASE_KEYWORDS = 5 /\
  List.length BASE_TECHNICAL_SKILLS = 5.
Proof.
  split; [apply generate_keywords_base |].
  split; [apply generate_technical_skills_base |].
  split; reflexivity.
Qed.

(** C1 (the code departs from it). The title "Senior Risk Analyst"
    contains "senior", its keyword list has five entries, and neither
    "Senior Risk Analyst" nor "Risk Leadership" is among them; the same
    holds for every title. *)
Theorem senior_terms_cut_off :
  contains "senior" (lower "Senior Risk Analyst") = true /\
  (forall query,
     generate_keywords "Senior Risk Analyst" query = BASE_KEYWORDS) /\
  (forall job_title query,
     List.length (generate_keywords job_title query) <= 5 /\
     ~ In "Senior Risk Analyst" (generate_keywords job_title query) /\
     ~ In "Risk Leadership" (generate_keywords job_title query)).
Proof.
  split; [reflexivity |]. split; [intros; apply generate_keywords_base |].
  intros job_title query. rewrite generate_keywords_base.
  split; [simpl; lia |].
  split; simpl; intros H; repeat destruct H as [H | H]; try discriminate H;
    exact H.
Qed.

(** ** The effect monad *)

Section MonadLemmas.

Context {E : Type}.

Variable P : Event -> Prop.

Lemma emits_ret {A} (a : A) : emits P (@ret E A a).
Proof. intros s. constructor. Qed.

Lemma emits_raise {A} (e : E) : emits P (@raise E A e).
Proof. intros s. constructor. Qed.

Lemma emits_next_tick : emits P (@next_tick E).
Proof. intros s. constructor. Qed.

Lemma emits_get_store : emits P (@get_store E).
Proof. intros s. constructor. Qed.

Lemma emits_put_store docs : emits P (@put_store E docs).
Proof. intros s. constructor. Qed.

Lemma emits_emit ev : P ev -> emits P (@emit E ev).
Proof. intros H s. simpl. auto. Qed.

Lemma emits_bind {A B} (m : M E A) (k : A -> M E B) :
  emits P m -> (forall a, emits P (k a)) -> emits P (bind m k).
Proof.
  intros Hm Hk s. unfold bind. specialize (Hm s).
  destruct (m s) as [[a|e] s1 evs1]; simpl in *; [| exact Hm].
  specialize (Hk a s1). destruct (k a s1) as [r s2 evs2]; simpl in *.
  apply Forall_app. split; assumption.
Qed.

Lemma emits_try_except {E' A} (m : M E' A) (h : E' -> M E A) :
  emits P m -> (forall e, emits P (h e)) -> emits P (try_except m h).
Proof.
  intros Hm Hh s. unfold try_except. specialize (Hm s).
  destruct (m s) as [[a|e] s1 evs1]; simpl in *; [exact Hm |].
  specialize (Hh e s1). destruct (h e s1) as [r s2 evs2]; simpl in *.
  apply Forall_app. split; assumption.
Qed.

Lemma emits_for_each {A B} (body : B -> A -> M E B) (xs : list A) :
  (forall acc x, emits P (body acc x)) ->
  forall acc, emits P (for_each body xs acc).
Proof.
  intros Hbody. induction xs as [|x xs IH]; intros acc; simpl.
  - apply emits_ret.
  - apply emits_bind; auto.
Qed.

Lemma keeps_store_ret {A} (a : A) : keeps_store (@ret E A a).
Proof. intros s. reflexivity. Qed.

Lemma keeps_store_raise {A} (e : E) : keeps_store (@raise E A e).
Proof. intros s. reflexivity. Qed.

Lemma keeps_store_next_tick : keeps_store (@next_tick E).
Proof. intros s. reflexivity. Qed.

Lemma keeps_store_get_store : keeps_store (@get_store E).
Proof. intros s. reflexivity. Qed.

Lemma keeps_store_emit ev : keeps_store (@emit E ev).
Proof. intros s. reflexivity. Qed.

Lemma keeps_store_bind {A B} (m : M E A) (k : A -> M E B) :
  keeps_store m -> (forall a, keeps_store (k a)) -> keeps_store (bind m k).
Proof.
  intros Hm Hk s. unfold bind. specialize (Hm s).
  destruct (m s) as [[a|e] s1 evs1]; simpl in *; [| exact Hm].
  specialize (Hk a s1). destruct (k a s1) as [r s2 evs2]; simpl in *.
  congruence.
Qed.

Lemma keeps_store_try_except {E' A} (m : M E' A) (h : E' -> M E A) :
  keeps_store m -> (forall e, keeps_store (h e)) ->
  keeps_store (try_except m h).
Proof.
  intros Hm Hh s. unfold try_except. specialize (Hm s).
  destruct (m s) as [[a|e] s1 evs1]; simpl in *; [exact Hm |].
  specialize (Hh e s1). destruct (h e s1) as [r s2 evs2]; simpl in *.
  congruence.
Qed.

Lemma keeps_store_for_each {A B} (body : B -> A -> M E B) (xs : list A) :
  (forall acc x, keeps_store (body acc x)) ->
  forall acc, keeps_store (for_each body xs acc).
Proof.
  intros Hbody. induction xs as [|x xs IH]; intros acc; simpl.
  - apply keeps_store_ret.
  - apply keeps_store_bind; auto.
Qed.

Lemma never_raises_ret {A} (a : A) : never_raises (@ret E A a).
Proof. intros s. exists a. reflexivity. Qed.

Lemma never_raises_next_tick : never_raises (@next_tick E).
Proof. intros s. eexists. reflexivity. Qed.

Lemma never_raises_emit ev : never_raises (@emit E ev).
Proof. intros s. eexists. reflexivity. Qed.

Lemma never_raises_bind {A B} (m : M E A) (k : A -> M E B) :
  never_raises m -> (forall a, never_raises (k a)) -> never_raises (bind m k).
Proof.
  intros Hm Hk s. unfold bind. destruct (Hm s) as [a Ha].
  destruct (m s) as [r1 s1 evs1]; simpl in *. subst r1.
  destruct (Hk a s1) as [b Hb]. destruct (k a s1) as [r2 s2 evs2]; simpl in *.
  eauto.
Qed.

Lemma never_raises_try_except {E' A} (m : M E' A) (h : E' -> M E A) :
  (forall e, never_raises (h e)) -> never_raises (try_except m h).
Proof.
  intros Hh s. unfold try_except.
  destruct (m s) as [[a|e] s1 evs1]; simpl; [eauto |].
  destruct (Hh e s1) as [b Hb]. destruct (h e s1) as [r2 s2 evs2]; simpl in *.
  eauto.
Qed.

Lemma never_raises_for_each {A B} (body : B -> A -> M E B) (xs : list A) :
  (forall acc x, never_raises (body acc x)) ->
  forall acc, never_raises (for_each body xs acc).
Proof.
  intros Hbody. induction xs as [|x xs IH]; intros acc; simpl.
  - apply never_raises_ret.
  - apply never_raises_bind; auto.
Qed.

End MonadLemmas.

Create HintDb prog discriminated.

#[export] Hint Resolve
  emits_ret emits_raise emits_next_tick emits_get_store emits_put_store
  emits_emit emits_bind emits_try_except emits_for_each
  keeps_store_ret keeps_store_raise keeps_store_next_tick
  keeps_store_get_store keeps_store_emit keeps_store_bind
  keeps_store_try_except keeps_store_for_each
  never_raises_ret never_raises_next_tick never_raises_emit
  never_raises_bind never_raises_try_except never_raises_for_each : prog.

(** Breaks a goal about a program along the program's structure. *)
Ltac prog :=
  repeat first
    [ progress intros
    | match goal with
      | |- context [match ?x with _ => _ end] => destruct x
      | |- context [if ?b then _ else _] => destruct b
      end
    | solve [auto with prog]
    | apply emits_bind | apply emits_try_except | apply emits_for_each
    | apply keeps_store_bind | apply keeps_store_try_except
    | apply keeps_store_for_each
    | apply never_raises_bind | apply never_raises_try_except
    | apply never_raises_for_each
    | apply emits_emit; repeat split ].

Section FetcherLemmas.

Variable w : World.

Lemma search_jobs_google_never_raises query location days_filter :
  never_raises (search_jobs_google w query location days_filter).
Proof.
  unfold search_jobs_google, fetch_template, parse_result, log_error. prog.
Qed.

Lemma search_jobs_google_keeps_store query location days_filter :
  keeps_store (search_jobs_google w query location days_filter).
Proof.
  unfold search_jobs_google, fetch_template, parse_result, get,
    response_text, new_JobListing, sleep, log_error.
  prog.
Qed.

Lemma search_jobs_google_emits query location days_filter :
  emits fetch_event (search_jobs_google w query location days_filter).
Proof.
  unfold search_jobs_google, fetch_template, parse_result, get,
    response_text, new_JobListing, sleep, log_error, fetch_event.
  prog.
Qed.

Lemma send_email_report_never_raises jobs recipient_email :
  never_raises (send_email_report w jobs recipient_email).
Proof. unfold send_email_report, log_error. prog. Qed.

Lemma send_email_report_keeps_store jobs recipient_email :
  keeps_store (send_email_report w jobs recipient_email).
Proof.
  unfold send_email_report, send_email_try, mail_call, log_error, log_info.
  prog.
Qed.

Lemma send_email_report_emits jobs recipient_email :
  emits mailer_event (send_email_report w jobs recipient_email).
Proof.
  unfold send_email_report, send_email_try, mail_call, log_error, log_info,
    mailer_event.
  prog.
Qed.

End FetcherLemmas.

(** ** The daily run *)

Lemma search_with_mail_lib w relay q l d :
  search_jobs_google (with_mail_lib w relay) q l d = search_jobs_google w q l d.
Proof. reflexivity. Qed.


Lemma daily_run_cases (w : World) (s : State) :
  let o1 := search_jobs_google w "Third Party Risk Assessment"
              "Bangalore India OR remote" 7 s in
  let run := daily_job_search_task w s in
  exists found,
    result o1 = Ok found /\
    result run = Ok tt /\
    let doc := {| jobs := filter_relevant found;
                  total_count := len (filter_relevant found);
                  search_query := "Third Party Risk Assessment";
                  search_date := utcnow w (tick (final o1)) |} in
    match db_insert_one w (S (tick (final o1))) with
    | Some e =>
        events run =
          EvLogInfo "Starting daily job search task..." :: events o1 ++
          [EvLogError ("Daily job search task failed: " +++ str e)] /\
        store (final run) = store s
    | None =>
        exists mailed,
          Forall mailer_event mailed /\
          events run =
            EvLogInfo "Starting daily job search task..." :: events o1 ++
            EvInsert doc :: mailed /\
          store (final run) = store s ++ [doc]
    end.
Proof.
  intros o1 run. subst o1 run.
  pose proof (search_jobs_google_never_raises w "Third Party Risk Assessment"
              "Bangalore India OR remote" 7 s) as [found Hfound].
  pose proof (search_jobs_google_keeps_store w "Third Party Risk Assessment"
              "Bangalore India OR remote" 7 s) as Hstore.
  exists found. split; [exact Hfound |].
  unfold daily_job_search_task, daily_job_search_try, now_utc, insert_one,
    log_info, log_error, try_except, emit, next_tick, ret, raise,
    get_store, put_store, bind.
  destruct (search_jobs_google w "Third Party Risk Assessment"
              "Bangalore India OR remote" 7 s) as [r1 s1 ev1].
  cbn [result final events tick store] in *. subst r1.
  destruct (db_insert_one w (S (tick s1))) as [e|].
  - cbn [result final events tick store app]. rewrite app_nil_r. auto.
  - cbn [result final events tick store app].
    match goal with
    | |- context [send_email_report w ?js ?r ?st] =>
        pose proof (send_email_report_never_raises w js r st) as [sent Hsent];
        pose proof (send_email_report_keeps_store w js r st) as Hkeep;
        pose proof (send_email_report_emits w js r st) as Hmail;
        destruct (send_email_report w js r st) as [r2 s2 ev2]
    end.
    cbn [result final events tick store] in *. subst r2.
    cbn [result final events tick store app].
    split; [reflexivity |].
    exists (ev2 ++ [EvLogInfo ("Daily job search completed. Found " +++
              str_of_nat (List.length (filter_relevant found)) +++
              " relevant jobs.")]).
    split; [| split].
    + apply Forall_app. split; [exact Hmail |].
      repeat constructor.
    + reflexivity.
    + rewrite Hkeep, Hstore. reflexivity.
Qed.

(** ** Traces *)

Lemma inserted_docs_app (xs ys : list Event) :
  inserted_docs (xs ++ ys) = inserted_docs xs ++ inserted_docs ys.
Proof.
  induction xs as [|ev xs IH]; simpl; [reflexivity |].
  destruct ev; simpl; now rewrite ?IH.
Qed.

Lemma inserted_docs_none (evs : list Event) :
  Forall (fun ev => is_insert ev = false) evs -> inserted_docs evs = [].
Proof.
  induction 1 as [|ev evs Hev _ IH]; simpl; [reflexivity |].
  destruct ev; try discriminate Hev; exact IH.
Qed.

Lemma fetch_events_no_insert (evs : list Event) :
  Forall fetch_event evs -> inserted_docs evs = [].
Proof.
  intros H. apply inserted_docs_none. revert H. apply Forall_impl.
  intros ev [H _]. exact H.
Qed.

Lemma mailer_events_no_insert (evs : list Event) :
  Forall mailer_event evs -> inserted_docs evs = [].
Proof.
  intros H. apply inserted_docs_none. revert H. apply Forall_impl.
  intros ev [H _]. exact H.
Qed.



Lemma fetch_events_no_mail (evs : list Event) :
  Forall fetch_event evs -> Forall (fun ev => is_mail ev = false) evs.
Proof. apply Forall_impl. intros ev [_ H]. exact H. Qed.

(** ** The pipeline *)

Lemma daily_never_raises (w : World) (s : State) :
  result (daily_job_search_task w s) = Ok tt.
Proof. destruct (daily_run_cases w s) as [found [_ [H _]]]. exact H. Qed.

Lemma daily_inserted_docs (w : World) (s : State) :
  let o1 := search_jobs_google w "Third Party Risk Assessment"
              "Bangalore India OR remote" 7 s in
  exists found,
    result o1 = Ok found /\
    inserted_docs (events (daily_job_search_task w s)) =
      match db_insert_one w (S (tick (final o1))) with
      | Some _ => []
      | None =>
          [{| jobs := filter_relevant found;
              total_count := len (filter_relevant found);
              search_query := "Third Party Risk Assessment";
              search_date := utcnow w (tick (final o1)) |}]
      end /\
    store (final (daily_job_search_task w s)) =
      store s ++ inserted_docs (events (daily_job_search_task w s)).
Proof.
  intros o1. destruct (daily_run_cases w s) as [found [Hfound [_ H]]].
  fold o1 in Hfound, H. exists found. split; [exact Hfound |].
  pose proof (search_jobs_google_emits w "Third Party Risk Assessment"
                "Bangalore India OR remote" 7 s) as Hfetch.
  fold o1 in Hfetch. apply fetch_events_no_insert in Hfetch.
  cbv zeta in H. destruct (db_insert_one w (S (tick (final o1)))) as [e|].
  - destruct H as [Hev Hst]. rewrite Hev, Hst. simpl.
    rewrite inserted_docs_app, Hfetch. simpl. now rewrite app_nil_r.
  - destruct H as [mailed [Hmailed [Hev Hst]]]. rewrite Hev, Hst. simpl.
    rewrite inserted_docs_app, Hfetch. simpl.
    rewrite (mailer_events_no_insert _ Hmailed). auto.
Qed.

(** C2. Every Search Result the pipeline produces has [total_count] equal
    to the length of [jobs]: the record the daily run writes to the store
    (the only record it writes) and the value the manual search endpoint
    returns. *)
Theorem total_count_is_len (w : World) (s : State)
  (request : JobSearchRequest) :
  Forall count_ok (inserted_docs (events (daily_job_search_task w s))) /\
  store (final (daily_job_search_task w s)) =
    store s ++ inserted_docs (events (daily_job_search_task w s)) /\
  exists r, result (search_jobs_endpoint w request s) = Ok r /\ count_ok r.
Proof.
  destruct (daily_inserted_docs w s) as [found [_ [Hdocs Hstore]]].
  split; [| split; [exact Hstore |]].
  - rewrite Hdocs. destruct (db_insert_one _ _); repeat constructor.
  - destruct (search_jobs_google_never_raises w (req_query request)
                (req_location request) (req_days_filter request) s)
      as [found' Hfound'].
    unfold search_jobs_endpoint, now_utc, try_except, next_tick, ret, bind.
    destruct (search_jobs_google w (req_query request)
                (req_location request) (req_days_filter request) s)
      as [r1 s1 ev1].
    cbn [result final events] in *. subst r1. eexists.
    split; [reflexivity | reflexivity].
Qed.


(** ** Mailer *)

Lemma send_email_report_try (w : World) (jobs : list JobListing)
  (recipient_email : string) (s : State) :
  result (send_email_report w jobs recipient_email s) =
    match result (send_email_try w jobs recipient_email s) with
    | Ok sent => Ok sent
    | Raise _ => Ok false
    end.
Proof.
  unfold send_email_report, log_error, try_except, emit, ret, bind.
  destruct (send_email_try w jobs recipient_email s) as [[sent|e] s1 ev1];
    reflexivity.
Qed.

(** Runs the calls of the mailer one after the other. *)
Ltac mail_steps w :=
  repeat match goal with
         | |- context [mail_lib w ?t ?c] =>
             destruct (mail_lib w t c);
             cbn [result final events tick store]
         end.

Lemma send_email_try_true (w : World) (jobs : list JobListing)
  (recipient_email : string) (s : State) (sent : bool) :
  result (send_email_try w jobs recipient_email s) = Ok sent -> sent = true.
Proof.
  unfold send_email_try, mail_call, log_info, emit, next_tick, ret, raise,
    bind.
  cbn [result final events tick store]. mail_steps w;
    intros H; try discriminate H; now injection H.
Qed.

Lemma login_raises_try (w : World) (jobs : list JobListing)
  (recipient_email : string) (s : State) :
  (forall t, exists e,
     mail_lib w t (SMTP_login EMAIL_ADDRESS (EMAIL_PASSWORD w)) = Some e) ->
  exists e, result (send_email_try w jobs recipient_email s) = Raise e.
Proof.
  intros Hlogin.
  unfold send_email_try, mail_call, log_info, emit, next_tick, ret, raise,
    bind.
  cbn [result final events tick store].
  repeat match goal with
         | |- context [mail_lib w ?t (SMTP_login ?u ?p)] =>
             destruct (Hlogin t) as [e ->];
             cbn [result final events tick store]
         | |- context [mail_lib w ?t ?c] =>
             destruct (mail_lib w t c); cbn [result final events tick store]
         end;
    eauto.
Qed.

(** C3. The Mailer returns a boolean and raises nothing: whatever raises
    in its [try] block, during composition or delivery, turns into the
    return value [False]; in particular a relay that raises on [login]
    makes it return [False]; and when nothing raises it returns [True]. *)
Theorem mailer_returns_bool (w : World) (jobs : list JobListing)
  (recipient_email : string) (s : State) :
  (exists sent,
     result (send_email_report w jobs recipient_email s) = Ok sent) /\
  (forall e,
     result (send_email_try w jobs recipient_email s) = Raise e ->
     result (send_email_report w jobs recipient_email s) = Ok false) /\
  (forall sent,
     result (send_email_try w jobs recipient_email s) = Ok sent ->
     result (send_email_report w jobs recipient_email s) = Ok true) /\
  ((forall t, exists e,
      mail_lib w t (SMTP_login EMAIL_ADDRESS (EMAIL_PASSWORD w)) = Some e) ->
   result (send_email_report w jobs recipient_email s) = Ok false).
Proof.
  split; [apply send_email_report_never_raises |].
  split; [| split].
  - intros e H. now rewrite send_email_report_try, H.
  - intros sent H. rewrite send_email_report_try, H.
    now rewrite (send_email_try_true _ _ _ _ _ H).
  - intros Hlogin. rewrite send_email_report_try.
    destruct (login_raises_try w jobs recipient_email s Hlogin) as [e ->].
    reflexivity.
Qed.

Lemma mailer_returns_bool_witness :
  (forall t, exists e,
     mail_lib world_login_raises t
       (SMTP_login EMAIL_ADDRESS (EMAIL_PASSWORD world_login_raises)) =
     Some e) /\
  result (send_email_report world_login_raises [] "someone@example.com"
            initial_state) = Ok false.
Proof.
  assert (Hlogin : forall t, exists e,
            mail_lib world_login_raises t
              (SMTP_login EMAIL_ADDRESS (EMAIL_PASSWORD world_login_raises)) =
            Some e)
    by (intros t; eexists; reflexivity).
  split; [exact Hlogin |].
  apply (mailer_returns_bool world_login_raises [] "someone@example.com"
           initial_state).
  exact Hlogin.
Defined.

(** ** Search Fetcher *)

(** C4. The fetcher does the same for any two values of [days_filter]:
    same result, same state left behind, same requests issued; and so does
    the manual search endpoint, fetch and filter together. *)
Theorem days_filter_ignored (w : World) (query location : string)
  (days1 days2 : Z) (s : State) :
  search_jobs_google w query location days1 s =
    search_jobs_google w query location days2 s /\
  search_jobs_endpoint w
    {| req_query := query; req_location := location;
       req_days_filter := days1 |} s =
  search_jobs_endpoint w
    {| req_query := query; req_location := location;
       req_days_filter := days2 |} s.
Proof. split; reflexivity. Qed.

(** C7 (the code departs from it). When every request is answered 404,
    and when every request raises, the fetcher issues its six requests and
    never sleeps; a request answered 200 is followed by the pause. *)
Theorem no_pause_after_failed_request :
  let run404 := search_jobs_google world_404 "Third Party Risk Assessment"
                  "Bangalore India OR remote" 7 initial_state in
  let run_raise := search_jobs_google world_unreachable
                     "Third Party Risk Assessment"
                     "Bangalore India OR remote" 7 initial_state in
  let run200 := search_jobs_google world_two_blocks
                  "Third Party Risk Assessment"
                  "Bangalore India OR remote" 7 initial_state in
  List.length (filter is_get (events run404)) = 6 /\
  filter is_sleep (events run404) = [] /\
  pause_follows_each_get (events run404) = false /\
  List.length (filter is_get (events run_raise)) = 6 /\
  filter is_sleep (events run_raise) = [] /\
  pause_follows_each_get (events run_raise) = false /\
  filter is_sleep (events run200) = [EvSleep 1] /\
  pause_follows_each_get (firstn 2 (events run200)) = true.
Proof. vm_compute. repeat split. Qed.

(** ** Request handlers *)

(** C8. With no record in the store, [GET /job-results] answers status
    200 with the empty list. *)
Theorem job_results_empty_store (w : World) (t : nat) :
  db_find w t = None ->
  let run := get_job_results w {| tick := t; store := [] |} in
  respond (result run) = Response200 [] /\
  http_status (respond (result run)) = 200%Z.
Proof.
  intros H. unfold get_job_results, find_recent, try_except, next_tick,
    get_store, ret, raise, bind.
  cbn [result final events tick store]. rewrite H.
  cbn. split; reflexivity.
Qed.

Lemma job_results_empty_store_witness :
  db_find world_404 0 = None /\
  respond (result (get_job_results world_404 initial_state)) = Response200 [].
Proof.
  split; [reflexivity |].
  apply (job_results_empty_store world_404 0). reflexivity.
Defined.

(** * Further properties *)

(** ** One result block, one template *)

Lemma parse_result_run (w : World) (query : string) (jobs : list JobListing)
  (block : ResultBlock) (s : State) :
  parse_result w query jobs block s =
    match h3 block, a_tag block with
    | Some title, Some (Some href) =>
        {| result :=
             Ok (jobs ++
                 [fetched_job w query title href (span_st block) (tick s)]);
           final := {| tick := S (S (tick s)); store := store s |};
           events := [] |}
    | Some _, Some None =>
        {| result := Ok jobs;
           final := {| tick := S (S (tick s)); store := store s |};
           events :=
             [EvLogError ("Error parsing job result: " +++
                          str (validation_error w))] |}
    | _, _ => {| result := Ok jobs; final := s; events := [] |}
    end.
Proof.
  unfold parse_result.
  destruct (h3 block) as [title|]; [| reflexivity].
  destruct (a_tag block) as [[href|]|]; reflexivity.
Qed.

Lemma fetch_template_run (w : World) (query : string)
  (jobs : list JobListing) (search_query : string) (s : State) :
  let after_get := {| tick := S (tick s); store := store s |} in
  fetch_template w query jobs search_query s =
    match session_get w (tick s) (google_url search_query) with
    | Raise e =>
        {| result := Ok jobs; final := after_get;
           events := [EvGet (google_url search_query);
                      EvLogError ("Error searching jobs: " +++ str e)] |}
    | Ok response =>
        if Z.eqb (status response) 200 then
          match text response with
          | Raise e =>
              {| result := Ok jobs; final := after_get;
                 events := [EvGet (google_url search_query);
                            EvLogError ("Error searching jobs: " +++ str e)]
              |}
          | Ok html =>
              let page := for_each (parse_result w query)
                            (firstn 10 (find_all_g w html)) jobs after_get in
              match result page with
              | Ok found =>
                  {| result := Ok found; final := final page;
                     events := EvGet (google_url search_query) ::
                               events page ++ [EvSleep 1] |}
              | Raise e =>
                  {| result := Ok jobs; final := final page;
                     events := EvGet (google_url search_query) ::
                               events page ++
                               [EvLogError
                                  ("Error searching jobs: " +++ str e)] |}
              end
          end
        else
          {| result := Ok jobs; final := after_get;
             events := [EvGet (google_url search_query)] |}
    end.
Proof.
  intros after_get. subst after_get.
  unfold fetch_template, get, response_text, sleep, log_error, try_except,
    emit, next_tick, ret, raise, bind.
  cbn [result final events tick store].
  fold (google_url search_query).
  destruct (session_get w (tick s) (google_url search_query))
    as [response|e]; [| reflexivity].
  cbn [result final events tick store app].
  destruct (Z.eqb (status response) 200); [| reflexivity].
  destruct (text response) as [html|e]; [| reflexivity].
  cbn [result final events tick store app].
  destruct (for_each (parse_result w query) (firstn 10 (find_all_g w html))
              jobs {| tick := S (tick s); store := store s |})
    as [[found|e] s1 ev1]; cbn [result final events app].
  - reflexivity.
  - reflexivity.
Qed.

(** ** Loops *)

(** An invariant of a loop whose body always returns: it relates the items
    done, the accumulator, the state and the events emitted so far. *)
Lemma for_each_inv {E A B} (body : B -> A -> M E B)
  (Inv : list A -> B -> State -> list Event -> Prop) :
  (forall done acc s evs x,
     Inv done acc s evs ->
     exists acc',
       result (body acc x s) = Ok acc' /\
       Inv (done ++ [x]) acc' (final (body acc x s))
           (evs ++ events (body acc x s))) ->
  forall xs done acc s evs,
    Inv done acc s evs ->
    exists acc',
      result (for_each body xs acc s) = Ok acc' /\
      Inv (done ++ xs) acc' (final (for_each body xs acc s))
          (evs ++ events (for_each body xs acc s)).
Proof.
  intros Hstep. induction xs as [|x xs IH]; intros done acc s evs Hinv.
  - exists acc. simpl. rewrite !app_nil_r. auto.
  - destruct (Hstep done acc s evs x Hinv) as [acc1 [Hres Hinv1]].
    simpl. unfold bind.
    destruct (body acc x s) as [r1 s1 ev1]. cbn [result final events] in *.
    subst r1.
    destruct (IH (done ++ [x]) acc1 s1 (evs ++ ev1) Hinv1)
      as [acc2 [Hres2 Hinv2]].
    destruct (for_each body xs acc1 s1) as [r2 s2 ev2].
    cbn [result final events] in *. subst r2.
    exists acc2. split; [reflexivity |].
    rewrite <- app_assoc in Hinv2. simpl in Hinv2.
    now rewrite <- app_assoc in Hinv2.
Qed.

Section Fetcher.

Variable w : World.
Variable query : string.

Lemma page_never_raises (blocks : list ResultBlock) (jobs : list JobListing) :
  never_raises (for_each (parse_result w query) blocks jobs).
Proof. unfold parse_result, log_error. prog. Qed.

Lemma page_emits_log_errors (blocks : list ResultBlock)
  (jobs : list JobListing) :
  emits (fun ev => is_log_error ev = true)
    (for_each (parse_result w query) blocks jobs).
Proof. unfold parse_result, new_JobListing, log_error. prog. Qed.

Lemma page_keeps_store (blocks : list ResultBlock) (jobs : list JobListing) :
  keeps_store (for_each (parse_result w query) blocks jobs).
Proof. unfold parse_result, new_JobListing, log_error. prog. Qed.

(** What one template does, as a relation between the list before and the
    outcome: the request is the first event, the list is extended by what
    the page gives, and the pause is the last event exactly when the page
    was read. *)
Lemma fetch_template_cases (jobs : list JobListing) (search_query : string)
  (s : State) :
  let o := fetch_template w query jobs search_query s in
  (result o = Ok jobs /\
   final o = {| tick := S (tick s); store := store s |} /\
   exists logs,
     events o = EvGet (google_url search_query) :: logs /\
     Forall (fun ev => is_log_error ev = true) logs) \/
  (exists html,
     session_get w (tick s) (google_url search_query) =
       Ok {| status := 200; text := Ok html |} /\
     let page := for_each (parse_result w query)
                   (firstn 10 (find_all_g w html)) jobs
                   {| tick := S (tick s); store := store s |} in
     result o = result page /\ final o = final page /\
     events o = EvGet (google_url search_query) ::
                events page ++ [EvSleep 1]).
Proof.
  intros o. subst o. rewrite fetch_template_run. cbv zeta.
  destruct (session_get w (tick s) (google_url search_query))
    as [[code [html|e]]|e]; cbn [status text].
  - destruct (Z.eqb code 200) eqn:Hcode.
    + right. exists html. apply Z.eqb_eq in Hcode. subst code.
      split; [reflexivity |]. cbv zeta.
      destruct (page_never_raises (firstn 10 (find_all_g w html)) jobs
                  {| tick := S (tick s); store := store s |}) as [found H].
      rewrite H. auto.
    + left. repeat split. exists []. auto.
  - left. destruct (Z.eqb code 200); repeat split; eexists; split;
      try reflexivity; repeat constructor.
  - left. repeat split. eexists. split; [reflexivity |]. repeat constructor.
Qed.

(** The page loop extends the list by at most one posting per block. *)
Lemma page_extends (blocks : list ResultBlock) (jobs : list JobListing)
  (s : State) :
  exists added,
    result (for_each (parse_result w query) blocks jobs s) =
      Ok (jobs ++ added) /\
    List.length added <= List.length blocks.
Proof.
  destruct (for_each_inv (parse_result w query)
              (fun done acc _ _ =>
                 exists added,
                   acc = jobs ++ added /\
                   List.length added <= List.length done))
    with (xs := blocks) (done := @nil ResultBlock) (acc := jobs) (s := s)
         (evs := @nil Event) as [acc [Hres [added [-> Hlen]]]].
  - intros done acc s0 evs block [added [-> Hlen]].
    rewrite parse_result_run.
    destruct (h3 block) as [title|];
      [destruct (a_tag block) as [[href|]|] |]; cbn [result];
      eexists; (split; [reflexivity |]);
      try (exists added; split; [reflexivity |]; rewrite length_app;
           simpl; lia).
    eexists. split; [symmetry; apply app_assoc |].
    rewrite !length_app. simpl. lia.
  - exists []. split; [now rewrite app_nil_r | simpl; lia].
  - exists added. auto.
Qed.

(** A template extends the list it is given by at most ten postings. *)
Lemma fetch_template_extends (jobs : list JobListing) (search_query : string)
  (s : State) :
  exists added,
    result (fetch_template w query jobs search_query s) = Ok (jobs ++ added) /\
    List.length added <= 10.
Proof.
  destruct (fetch_template_cases jobs search_query s)
    as [[Hres _] | [html [_ [Hres _]]]].
  - exists []. rewrite app_nil_r. split; [exact Hres | simpl; lia].
  - cbv zeta in Hres.
    destruct (page_extends (firstn 10 (find_all_g w html)) jobs
                {| tick := S (tick s); store := store s |})
      as [added [Hpage Hlen]].
    exists added. split; [congruence |].
    rewrite length_firstn in Hlen. lia.
Qed.

Lemma search_jobs_google_bounded (location : string) (days_filter : Z)
  (s : State) :
  exists found,
    result (search_jobs_google w query location days_filter s) = Ok found /\
    List.length found <= 60.
Proof.
  destruct (for_each_inv (fetch_template w query)
              (fun done acc _ _ => List.length acc <= 10 * List.length done))
    with (xs := search_queries query) (done := @nil string)
         (acc := @nil JobListing) (s := s) (evs := @nil Event)
    as [found [Hres Hlen]].
  - intros done acc s0 evs search_query Hacc.
    destruct (fetch_template_extends acc search_query s0)
      as [added [Hres Hlen]].
    eexists. split; [exact Hres |]. rewrite !length_app. simpl. lia.
  - simpl. lia.
  - exists found. split; [exact Hres |]. simpl in Hlen. lia.
Qed.

(** X2. The fetcher always returns, with at most ten postings per query
    template, sixty in all; a template never drops what earlier templates
    found, whatever its request did. *)
Theorem fetch_bounded (location : string) (days_filter : Z) (s : State) :
  (forall jobs search_query s0,
     exists added,
       result (fetch_template w query jobs search_query s0) =
         Ok (jobs ++ added) /\
       List.length added <= 10) /\
  exists found,
    result (search_jobs_google w query location days_filter s) = Ok found /\
    List.length found <= 60.
Proof.
  split; [apply fetch_template_extends | apply search_jobs_google_bounded].
Qed.


(** X3. Every posting the fetcher returns carries the fixed location,
    source and posted-date label, the five base keywords and the five base
    skills. *)
Theorem fetched_postings_fields (loc : string) (days_filter : Z)
  (s : State) :
  exists found,
    result (search_jobs_google w query loc days_filter s) = Ok found /\
    Forall fetched_fields found.
Proof.
  assert (Hpage : forall blocks jobs s0,
            Forall fetched_fields jobs ->
            exists found,
              result (for_each (parse_result w query) blocks jobs s0) =
                Ok found /\
              Forall fetched_fields found).
  { intros blocks jobs s0 Hjobs.
    destruct (for_each_inv (parse_result w query)
                (fun _ acc _ _ => Forall fetched_fields acc))
      with (xs := blocks) (done := @nil ResultBlock) (acc := jobs) (s := s0)
           (evs := @nil Event) as [found H]; [| exact Hjobs | eauto].
    intros done acc s1 evs block Hacc. rewrite parse_result_run.
    destruct (h3 block) as [title|];
      [destruct (a_tag block) as [[href|]|] |]; cbn [result];
      eexists; (split; [reflexivity |]); try exact Hacc.
    apply Forall_app. split; [exact Hacc |]. constructor; [| constructor].
    unfold fetched_fields, fetched_job.
    cbn [location source posted_date keywords technical_skills].
    rewrite generate_keywords_base, generate_technical_skills_base. auto. }
  destruct (for_each_inv (fetch_template w query)
              (fun _ acc _ _ => Forall fetched_fields acc))
    with (xs := search_queries query) (done := @nil string)
         (acc := @nil JobListing) (s := s) (evs := @nil Event)
    as [found H]; [| constructor | eauto].
  intros done acc s0 evs search_query Hacc.
  destruct (fetch_template_cases acc search_query s0)
    as [[Hres _] | [html [_ [Hres _]]]].
  - eauto.
  - cbv zeta in Hres. rewrite Hres. apply Hpage. exact Hacc.
Qed.

Lemma ids_fresh_later (jobs : list JobListing) (s s' : State) :
  tick s <= tick s' -> ids_fresh w jobs s -> ids_fresh w jobs s'.
Proof.
  intros Hle [Hnodup Hall]. split; [exact Hnodup |].
  revert Hall. apply Forall_impl. intros job [t [Ht Hid]].
  exists t. split; [lia | exact Hid].
Qed.

Lemma ids_fresh_append (jobs : list JobListing) (s : State)
  (job : JobListing) :
  (forall t1 t2, uuid4 w t1 = uuid4 w t2 -> t1 = t2) ->
  ids_fresh w jobs s -> id job = uuid4 w (tick s) ->
  ids_fresh w (jobs ++ [job]) {| tick := S (S (tick s)); store := store s |}.
Proof.
  intros Hinj [Hnodup Hall] Hid. split.
  - rewrite map_app. simpl.
    apply NoDup_app; [exact Hnodup | repeat constructor; intros [] |].
    intros x Hx [Hin | []]. subst x. apply in_map_iff in Hx.
    destruct Hx as [old [Hold Hin]].
    rewrite Forall_forall in Hall. destruct (Hall old Hin) as [t [Ht Hidold]].
    rewrite Hid, Hidold in Hold. apply Hinj in Hold. lia.
  - apply Forall_app. split.
    + revert Hall. apply Forall_impl. intros old [t [Ht Hidold]].
      exists t. cbn. split; [lia | exact Hidold].
    + constructor; [| constructor]. exists (tick s). cbn. split; [lia | auto].
Qed.

(** X6. When [uuid4] never gives one value twice, the postings the fetcher
    returns have pairwise different identifiers. *)
Theorem fetched_ids_distinct (location : string) (days_filter : Z)
  (s : State) :
  (forall t1 t2, uuid4 w t1 = uuid4 w t2 -> t1 = t2) ->
  exists found,
    result (search_jobs_google w query location days_filter s) = Ok found /\
    NoDup (map id found).
Proof.
  intros Hinj.
  assert (Hpage : forall blocks jobs s0,
            ids_fresh w jobs s0 ->
            exists found,
              result (for_each (parse_result w query) blocks jobs s0) =
                Ok found /\
              ids_fresh w found
                (final (for_each (parse_result w query) blocks jobs s0))).
  { intros blocks jobs s0 Hjobs.
    destruct (for_each_inv (parse_result w query)
                (fun _ acc s1 _ => ids_fresh w acc s1))
      with (xs := blocks) (done := @nil ResultBlock) (acc := jobs) (s := s0)
           (evs := @nil Event) as [found H]; [| exact Hjobs | eauto].
    intros done acc s1 evs block Hacc. rewrite parse_result_run.
    destruct (h3 block) as [title|];
      [destruct (a_tag block) as [[href|]|] |]; cbn [result final];
      eexists; (split; [reflexivity |]); try exact Hacc.
    - now apply ids_fresh_append.
    - eapply ids_fresh_later; [| exact Hacc]. cbn. lia. }
  destruct (for_each_inv (fetch_template w query)
              (fun _ acc s1 _ => ids_fresh w acc s1))
    with (xs := search_queries query) (done := @nil string)
         (acc := @nil JobListing) (s := s) (evs := @nil Event)
    as [found [Hres [Hnodup _]]]; [| split; constructor | eauto].
  intros done acc s0 evs search_query Hacc.
  destruct (fetch_template_cases acc search_query s0)
    as [[Hres [Hfin _]] | [html [_ [Hres [Hfin _]]]]].
  - eexists. split; [exact Hres |]. rewrite Hfin.
    eapply ids_fresh_later; [| exact Hacc]. cbn. lia.
  - cbv zeta in Hres, Hfin. rewrite Hres, Hfin. apply Hpage.
    eapply ids_fresh_later; [| exact Hacc]. cbn. lia.
Qed.

(** X5. From a page the fetcher keeps exactly the blocks that have a title
    and a link with [href], in page order, with that title and link; a
    block with a link element but no [href] costs one error log and nothing
    else; blocks without title or link element are passed over in
    silence.  The loop itself never raises. *)
Theorem page_postings (blocks : list ResultBlock) (jobs : list JobListing)
  (s : State) :
  let page := for_each (parse_result w query) blocks jobs s in
  exists added,
    result page = Ok (jobs ++ added) /\
    map (fun job => (job_title job, job_link job)) added =
      flat_map complete_block blocks /\
    Forall (fun ev => is_log_error ev = true) (events page) /\
    List.length (events page) = List.length (filter broken_block blocks).
Proof.
  intros page. subst page.
  destruct (for_each_inv (parse_result w query)
              (fun done acc _ evs =>
                 exists added,
                   acc = jobs ++ added /\
                   map (fun job => (job_title job, job_link job)) added =
                     flat_map complete_block done /\
                   List.length evs = List.length (filter broken_block done)))
    with (xs := blocks) (done := @nil ResultBlock) (acc := jobs) (s := s)
         (evs := @nil Event) as [acc [Hres [added [-> [Hmap Hlen]]]]].
  - intros done acc s0 evs block [added [-> [Hmap Hlen]]].
    rewrite parse_result_run.
    rewrite flat_map_app, filter_app, !length_app, <- Hlen. simpl.
    unfold complete_block, broken_block.
    destruct (h3 block) as [title|];
      [destruct (a_tag block) as [[href|]|] |]; cbn [result events];
      eexists; (split; [reflexivity |]).
    + exists (added ++ [fetched_job w query title href (span_st block)
                          (tick s0)]).
      split; [symmetry; apply app_assoc |].
      rewrite map_app, Hmap. simpl. split; [reflexivity | lia].
    + exists added. rewrite app_nil_r. simpl. split; [| split]; auto; lia.
    + exists added. rewrite !app_nil_r. simpl.
      split; [| split]; auto; lia.
    + exists added. rewrite !app_nil_r. simpl.
      split; [| split]; auto; lia.
  - exists []. rewrite app_nil_r. auto.
  - exists added. simpl in Hlen. repeat split; auto.
    apply page_emits_log_errors.
Qed.



End Fetcher.

Lemma str_of_nat_inj (n m : nat) : str_of_nat n = str_of_nat m -> n = m.
Proof.
  unfold str_of_nat. intros H.
  apply (f_equal NilEmpty.uint_of_string) in H.
  rewrite !NilEmpty.usu in H. injection H as H.
  apply (f_equal Nat.of_uint) in H.
  now rewrite !DecimalNat.Unsigned.of_to in H.
Qed.

Lemma fetched_ids_distinct_witness :
  (forall t1 t2, uuid4 world_all_200 t1 = uuid4 world_all_200 t2 -> t1 = t2) /\
  exists found,
    result (search_jobs_google world_all_200 "Third Party Risk Assessment"
              "India" 7 initial_state) = Ok found /\
    NoDup (map id found).
Proof.
  assert (Hinj : forall t1 t2,
            uuid4 world_all_200 t1 = uuid4 world_all_200 t2 -> t1 = t2).
  { intros t1 t2 H. simpl in H. injection H as H. now apply str_of_nat_inj. }
  split; [exact Hinj |].
  apply (fetched_ids_distinct world_all_200 "Third Party Risk Assessment"
           "India" 7 initial_state Hinj).
Defined.


(** ** Strings *)

Lemma append_assoc (a b c : string) : (a +++ b) +++ c = a +++ b +++ c.
Proof. induction a as [|x a IH]; simpl; [reflexivity | now rewrite IH]. Qed.

Lemma append_nil_r (a : string) : a +++ EmptyString = a.
Proof. induction a as [|x a IH]; simpl; [reflexivity | now rewrite IH]. Qed.





Lemma span_rest (p : ascii -> bool) (s : string) :
  match snd (span p s) with
  | EmptyString => True
  | String c _ => p c = false
  end.
Proof.
  induction s as [|c s IH]; simpl; [exact I |].
  destruct (p c) eqn:Hc; [| exact Hc].
  destruct (span p s) as [a b]. exact IH.
Qed.

Lemma lstrip_clean (s : string) : starts_clean (lstrip s) = true.
Proof.
  unfold lstrip, starts_clean. pose proof (span_rest is_space s) as H.
  destruct (snd (span is_space s)); [reflexivity | now rewrite H].
Qed.



Lemma rstrip_starts (s : string) :
  starts_clean s = true -> starts_clean (rstrip s) = true.
Proof.
  destruct s as [|c s]; simpl; [reflexivity |]. intros H.
  apply negb_true_iff in H. rewrite H. simpl. now rewrite H.
Qed.

Lemma rstrip_ends (s : string) : ends_clean (rstrip s) = true.
Proof.
  unfold ends_clean. induction s as [|c s IH]; simpl; [reflexivity |].
  destruct (is_space c) eqn:Hc; simpl.
  - destruct (rstrip s) as [|d r] eqn:Hr; simpl; [reflexivity |].
    exact IH.
  - destruct (rstrip s) as [|d r] eqn:Hr; simpl; [now rewrite Hc |].
    exact IH.
Qed.

Lemma strip_clean (s : string) :
  starts_clean (strip s) = true /\ ends_clean (strip s) = true.
Proof.
  unfold strip. split; [apply rstrip_starts, lstrip_clean | apply rstrip_ends].
Qed.

Lemma strip_idempotent (s : string) : strip (strip s) = strip s.
Proof.
  assert (Hl : forall t, starts_clean t = true -> lstrip t = t).
  { intros [|c t]; simpl; [reflexivity |]. unfold lstrip. simpl.
    intros H. apply negb_true_iff in H. now rewrite H. }
  assert (Hr : forall t, rstrip (rstrip t) = rstrip t).
  { induction t as [|c t IH]; simpl; [reflexivity |].
    destruct (is_space c && is_empty (rstrip t)) eqn:E; [reflexivity |].
    simpl. now rewrite IH, E. }
  unfold strip at 1. rewrite Hl; [| apply strip_clean].
  unfold strip. apply Hr.
Qed.

(** ** Company name *)









(** ** Report Renderer *)

Lemma report_rows_cons (job : JobListing) (jobs : list JobListing) :
  report_rows (job :: jobs) = report_row job +++ report_rows jobs.
Proof. reflexivity. Qed.

Lemma append_rows (html : string) (jobs : list JobListing) :
  fold_left (fun html job => html +++ report_row job) jobs html =
    html +++ report_rows jobs.
Proof.
  revert html. induction jobs as [|job jobs IH]; intros html.
  - cbn [fold_left]. symmetry. apply append_nil_r.
  - cbn [fold_left]. now rewrite IH, report_rows_cons, append_assoc.
Qed.

Lemma report_rows_app (jobs1 jobs2 : list JobListing) :
  report_rows (jobs1 ++ jobs2) = report_rows jobs1 +++ report_rows jobs2.
Proof.
  induction jobs1 as [|job jobs1 IH]; [reflexivity |].
  cbn [app]. now rewrite !report_rows_cons, IH, append_assoc.
Qed.

(** X8. The report is the head with the date and the number of postings,
    then one row per posting in list order, then the tail; rendering the
    same postings on two dates gives documents that differ in the date
    only. *)
Theorem report_structure (today : string) (jobs : list JobListing) :
  render_report today jobs =
    report_head today (List.length jobs) +++ report_rows jobs +++
    REPORT_TAIL /\
  (forall jobs1 jobs2,
     report_rows (jobs1 ++ jobs2) = report_rows jobs1 +++ report_rows jobs2) /\
  (forall other_day,
     exists rest,
       render_report today jobs = REPORT_HEAD_1 +++ today +++ rest /\
       render_report other_day jobs = REPORT_HEAD_1 +++ other_day +++ rest).
Proof.
  assert (H : forall day,
            render_report day jobs =
              report_head day (List.length jobs) +++ report_rows jobs +++
              REPORT_TAIL).
  { intros day. unfold render_report. now rewrite append_rows, append_assoc. }
  split; [apply H |]. split; [apply report_rows_app |].
  intros other_day.
  exists (REPORT_HEAD_2 +++ str_of_nat (List.length jobs) +++ REPORT_HEAD_3 +++
          report_rows jobs +++ REPORT_TAIL).
  rewrite !H. unfold report_head. now rewrite !append_assoc.
Qed.

(** X9. A row of the report shows the title, the company, the link and
    the first five keywords and skills of a posting, and nothing else of
    it: two postings that agree on these have the same row. *)
Theorem report_row_depends_on (job1 job2 : JobListing) :
  job_title job1 = job_title job2 ->
  company_name job1 = company_name job2 ->
  job_link job1 = job_link job2 ->
  firstn 5 (keywords job1) = firstn 5 (keywords job2) ->
  firstn 5 (technical_skills job1) = firstn 5 (technical_skills job2) ->
  report_row job1 = report_row job2.
Proof.
  intros Ht Hc Hl Hk Hs. unfold report_row. now rewrite Ht, Hc, Hl, Hk, Hs.
Qed.

Lemma report_row_depends_on_witness :
  job_title sample_posting = job_title sample_posting_longer /\
  company_name sample_posting = company_name sample_posting_longer /\
  job_link sample_posting = job_link sample_posting_longer /\
  firstn 5 (keywords sample_posting) =
    firstn 5 (keywords sample_posting_longer) /\
  firstn 5 (technical_skills sample_posting) =
    firstn 5 (technical_skills sample_posting_longer) /\
  report_row sample_posting = report_row sample_posting_longer.
Proof.
  repeat (split; [reflexivity |]).
  apply (report_row_depends_on sample_posting sample_posting_longer);
    reflexivity.
Defined.

(** ** Relevance Filter, continued *)

(** X10. Filtering the postings of several templates at once gives the
    same as filtering them apart and concatenating; the filter never adds
    a posting, and keeps all of a list whose titles all match. *)
Theorem relevance_filter_app (jobs1 jobs2 : list JobListing) :
  filter_relevant (jobs1 ++ jobs2) =
    filter_relevant jobs1 ++ filter_relevant jobs2 /\
  List.length (filter_relevant jobs1) <= List.length jobs1 /\
  (forallb is_relevant jobs1 = true -> filter_relevant jobs1 = jobs1).
Proof.
  rewrite !filter_relevant_filter. split; [apply filter_app |].
  split; [apply filter_length_le |].
  induction jobs1 as [|job jobs IH]; simpl; [reflexivity |].
  intros H. apply andb_true_iff in H. destruct H as [Hjob Hjobs].
  now rewrite Hjob, IH.
Qed.

(** ** Mailer, continued *)

Lemma attempted_prefix (w : World) (calls : list MailCall) (t : nat) :
  exists n, 
    fst (attempted w t calls) = firstn n calls /\
    (snd (attempted w t calls) = true -> fst (attempted w t calls) = calls).
Proof.
  revert t. induction calls as [|call rest IH]; intros t; simpl.
  - exists 0. auto.
  - destruct (mail_lib w t call).
    + exists 1. split; [reflexivity | discriminate].
    + destruct (IH (S t)) as [n [Hn Hall]].
      destruct (attempted w (S t) rest) as [made ok]. simpl in *.
      exists (S n). simpl. split; [now rewrite Hn |].
      intros H. now rewrite Hall.
Qed.

Lemma mailer_calls_run (w : World) (jobs : list JobListing)
  (recipient_email : string) (s : State) :
  let calls :=
    mail_sequence w (composed_message w jobs recipient_email (tick s))
      recipient_email in
  let run := send_email_report w jobs recipient_email s in
  mail_calls (events run) = fst (attempted w (S (tick s)) calls) /\
  result run = Ok (snd (attempted w (S (tick s)) calls)).
Proof.
  intros calls run. subst run calls.
  unfold send_email_report, send_email_try, mail_call, log_info, log_error,
    mail_sequence, composed_message, try_except, emit, next_tick, ret,
    raise, bind.
  cbn [result final events tick store attempted].
  repeat match goal with
         | |- context [mail_lib w ?t ?c] =>
             destruct (mail_lib w t c);
             cbn [result final events tick store attempted fst snd]
         end;
    split; reflexivity.
Qed.

(** X11. The mailer composes one message (from the fixed sender to the
    recipient, with the fixed subject and the rendered report) and calls
    the mail libraries in a fixed order: attach, connect, starttls, login,
    as_string, sendmail, quit.  It stops at the first call that raises, so
    the calls made are a prefix of that sequence, and it returns [True]
    exactly when all seven returned. *)
Theorem mailer_call_sequence (w : World) (jobs : list JobListing)
  (recipient_email : string) (s : State) :
  let msg := composed_message w jobs recipient_email (tick s) in
  let calls := mail_sequence w msg recipient_email in
  let run := send_email_report w jobs recipient_email s in
  mail_calls (events run) = fst (attempted w (S (tick s)) calls) /\
  result run = Ok (snd (attempted w (S (tick s)) calls)) /\
  (exists n, mail_calls (events run) = firstn n calls) /\
  (result run = Ok true -> mail_calls (events run) = calls).
Proof.
  intros msg calls run.
  destruct (mailer_calls_run w jobs recipient_email s) as [Hcalls Hres].
  fold msg in Hcalls, Hres. fold calls in Hcalls, Hres. fold run in Hcalls, Hres.
  split; [exact Hcalls |]. split; [exact Hres |].
  destruct (attempted_prefix w calls (S (tick s))) as [n [Hn Hall]].
  split.
  - exists n. now rewrite Hcalls.
  - intros Hok. rewrite Hres in Hok. injection Hok as Hok.
    rewrite Hcalls. now apply Hall.
Qed.

(** ** Result Store *)

Lemma insert_by_date_perm (doc : JobSearchResult)
  (docs : list JobSearchResult) :
  Permutation (insert_by_date doc docs) (doc :: docs).
Proof.
  induction docs as [|d docs IH]; simpl; [reflexivity |].
  destruct (Z.leb (search_date d) (search_date doc)); [reflexivity |].
  rewrite IH. apply perm_swap.
Qed.

Lemma sort_by_date_desc_perm (docs : list JobSearchResult) :
  Permutation (sort_by_date_desc docs) docs.
Proof.
  induction docs as [|d docs IH]; simpl; [reflexivity |].
  rewrite insert_by_date_perm. now constructor.
Qed.

Lemma insert_by_date_sorted (doc : JobSearchResult)
  (docs : list JobSearchResult) :
  StronglySorted newer_first docs ->
  StronglySorted newer_first (insert_by_date doc docs).
Proof.
  induction 1 as [|d docs Hsorted IH Hall]; simpl.
  - repeat constructor.
  - destruct (Z.leb (search_date d) (search_date doc)) eqn:Hle.
    + apply Z.leb_le in Hle. constructor; [now constructor |].
      constructor; [exact Hle |].
      revert Hall. apply Forall_impl. unfold newer_first. intros x Hx. lia.
    + apply Z.leb_gt in Hle. constructor; [exact IH |].
      eapply Permutation_Forall; [symmetry; apply insert_by_date_perm |].
      constructor; [unfold newer_first; lia | exact Hall].
Qed.

Lemma sort_by_date_desc_sorted (docs : list JobSearchResult) :
  StronglySorted newer_first (sort_by_date_desc docs).
Proof.
  induction docs as [|d docs IH]; simpl; [constructor |].
  now apply insert_by_date_sorted.
Qed.

Lemma sorted_split (l1 l2 : list JobSearchResult) :
  StronglySorted newer_first (l1 ++ l2) ->
  StronglySorted newer_first l1 /\
  forall x y, In x l1 -> In y l2 -> newer_first x y.
Proof.
  induction l1 as [|a l1 IH]; simpl; intros H.
  - split; [constructor | intros x y []].
  - inversion H as [|? ? Hs Hall]; subst.
    destruct (IH Hs) as [Hs1 Hcross].
    apply Forall_app in Hall. destruct Hall as [Hall1 Hall2].
    split; [now constructor |].
    intros x y [<- | Hx] Hy; [| now apply Hcross].
    rewrite Forall_forall in Hall2. now apply Hall2.
Qed.

Lemma recent_results_lemma (w : World) (s : State) :
  db_find w (tick s) = None ->
  let run := get_job_results w s in
  exists results omitted,
    result run = Ok results /\
    List.length results <= 10 /\
    StronglySorted newer_first results /\
    Permutation (results ++ omitted) (store s) /\
    (forall x y, In x results -> In y omitted -> newer_first x y) /\
    (List.length (store s) <= 10 -> omitted = []) /\
    store (final run) = store s.
Proof.
  intros Hfind run. subst run.
  exists (firstn 10 (sort_by_date_desc (store s))),
         (skipn 10 (sort_by_date_desc (store s))).
  pose proof (sort_by_date_desc_sorted (store s)) as Hsorted.
  rewrite <- (firstn_skipn 10 (sort_by_date_desc (store s))) in Hsorted.
  destruct (sorted_split _ _ Hsorted) as [Hfirst Hcross].
  repeat split.
  - unfold get_job_results, find_recent, try_except, next_tick, get_store,
      ret, raise, bind.
    cbn [result final events tick store]. rewrite Hfind.
    cbn [result final events tick store]. now rewrite map_id.
  - rewrite length_firstn. lia.
  - exact Hfirst.
  - rewrite firstn_skipn. apply sort_by_date_desc_perm.
  - exact Hcross.
  - intros Hlen. apply skipn_all2.
    rewrite (Permutation_length (sort_by_date_desc_perm (store s))). exact Hlen.
  - unfold get_job_results, find_recent, try_except, next_tick, get_store,
      ret, raise, bind.
    cbn [result final events tick store]. rewrite Hfind. reflexivity.
Qed.

(** X12. When the database read returns, [GET /job-results] answers with
    at most ten records of the store, latest first; every record it leaves
    out is no more recent than any record it returns; a store of at most
    ten records is returned whole.  The store is not changed. *)
Theorem recent_results (w : World) (s : State) :
  db_find w (tick s) = None ->
  let run := get_job_results w s in
  exists results omitted,
    result run = Ok results /\
    List.length results <= 10 /\
    StronglySorted newer_first results /\
    Permutation (results ++ omitted) (store s) /\
    (forall x y, In x results -> In y omitted -> newer_first x y) /\
    (List.length (store s) <= 10 -> omitted = []) /\
    store (final run) = store s.
Proof. apply recent_results_lemma. Qed.

Lemma recent_results_witness :
  db_find world_404 0 = None /\
  exists results omitted,
    result (get_job_results world_404 {| tick := 0; store := sample_store |}) =
      Ok results /\
    List.length results <= 10 /\
    StronglySorted newer_first results /\
    Permutation (results ++ omitted) sample_store /\
    (forall x y, In x results -> In y omitted -> newer_first x y) /\
    (List.length sample_store <= 10 -> omitted = []) /\
    store (final (get_job_results world_404
                    {| tick := 0; store := sample_store |})) = sample_store.
Proof.
  split; [reflexivity |].
  apply (recent_results world_404 {| tick := 0; store := sample_store |}).
  reflexivity.
Defined.

(** X13. When the database read raises, [GET /job-results] answers 500
    with the text of the exception as detail, after logging it; the store
    is not changed. *)
Theorem job_results_db_error (w : World) (s : State) (e : PyExc) :
  db_find w (tick s) = Some e ->
  let run := get_job_results w s in
  respond (result run) = ResponseError 500 (str e) /\
  events run = [EvLogError ("Failed to get job results: " +++ str e)] /\
  store (final run) = store s.
Proof.
  intros Hfind run. subst run.
  unfold get_job_results, find_recent, log_error, try_except, emit,
    next_tick, get_store, ret, raise, bind.
  cbn [result final events tick store]. rewrite Hfind.
  cbn. auto.
Qed.

Lemma job_results_db_error_witness :
  db_find world_db_down 0 = Some (Exception "connection refused") /\
  respond (result (get_job_results world_db_down initial_state)) =
    ResponseError 500 "connection refused".
Proof.
  split; [reflexivity |].
  apply (job_results_db_error world_db_down initial_state
           (Exception "connection refused")).
  reflexivity.
Defined.

(** X14. A record inserted into a store of fewer than ten records is
    returned by the next [GET /job-results], together with the records
    that were there. *)
Theorem insert_then_read (w : World) (s : State) (doc : JobSearchResult) :
  List.length (store s) < 10 ->
  db_insert_one w (tick s) = None ->
  db_find w (S (tick s)) = None ->
  let written := insert_one w doc s in
  exists results,
    result written = Ok tt /\
    result (get_job_results w (final written)) = Ok results /\
    In doc results /\
    Permutation results (doc :: store s).
Proof.
  intros Hlen Hins Hfind written.
  assert (Hwritten : result written = Ok tt /\
                     final written =
                       {| tick := S (tick s); store := store s ++ [doc] |}).
  { subst written.
    unfold insert_one, emit, next_tick, get_store, put_store, ret, raise,
      bind.
    cbn [result final events tick store]. rewrite Hins.
    cbn [result final events tick store]. auto. }
  destruct Hwritten as [Hres Hfinal]. rewrite Hfinal.
  destruct (recent_results_lemma w
              {| tick := S (tick s); store := store s ++ [doc] |} Hfind)
    as [results [omitted [Hr [_ [_ [Hperm [_ [Hnone _]]]]]]]].
  exists results. split; [exact Hres |]. split; [exact Hr |].
  cbn [store] in Hperm, Hnone. rewrite Hnone in Hperm.
  2:{ rewrite length_app. simpl. lia. }
  rewrite app_nil_r in Hperm.
  assert (Hp : Permutation results (doc :: store s)).
  { rewrite Hperm. symmetry. apply Permutation_cons_append. }
  split; [| exact Hp].
  eapply Permutation_in; [symmetry; exact Hp | now left].
Qed.

Lemma insert_then_read_witness :
  List.length sample_store < 10 /\
  db_insert_one world_404 0 = None /\
  db_find world_404 1 = None /\
  exists results,
    result (insert_one world_404 (empty_run 8)
              {| tick := 0; store := sample_store |}) = Ok tt /\
    result (get_job_results world_404
              (final (insert_one world_404 (empty_run 8)
                        {| tick := 0; store := sample_store |}))) =
      Ok results /\
    In (empty_run 8) results /\
    Permutation results (empty_run 8 :: sample_store).
Proof.
  split; [simpl; lia |]. split; [reflexivity |]. split; [reflexivity |].
  apply (insert_then_read world_404 {| tick := 0; store := sample_store |}
           (empty_run 8)).
  - simpl. lia.
  - reflexivity.
  - reflexivity.
Defined.

(** ** The pipeline, continued *)

Lemma mail_calls_app (xs ys : list Event) :
  mail_calls (xs ++ ys) = mail_calls xs ++ mail_calls ys.
Proof.
  induction xs as [|ev xs IH]; simpl; [reflexivity |].
  destruct ev; simpl; now rewrite ?IH.
Qed.

Lemma mail_calls_none (evs : list Event) :
  Forall (fun ev => is_mail ev = false) evs -> mail_calls evs = [].
Proof.
  induction 1 as [|ev evs Hev _ IH]; simpl; [reflexivity |].
  destruct ev; try discriminate Hev; exact IH.
Qed.



(** X15. When the write to the store raises, the daily run sends no
    e-mail and leaves the store as it was; it logs the failure as its last
    event, and the manual-trigger endpoint still answers 200. *)
Theorem daily_insert_fails (w : World) (s : State) (e : PyExc) :
  let o1 := search_jobs_google w "Third Party Risk Assessment"
              "Bangalore India OR remote" 7 s in
  db_insert_one w (S (tick (final o1))) = Some e ->
  let run := daily_job_search_task w s in
  mail_calls (events run) = [] /\
  store (final run) = store s /\
  (exists before,
     events run =
       before ++
       [EvLogError ("Daily job search task failed: " +++ str e)]) /\
  respond (result (trigger_manual_search w s)) =
    Response200 "Manual job search completed successfully".
Proof.
  intros o1 Hins run. subst run.
  destruct (daily_run_cases w s) as [found [_ [_ H]]]. cbv zeta in H.
  fold o1 in H. rewrite Hins in H. destruct H as [Hev Hstore].
  pose proof (search_jobs_google_emits w "Third Party Risk Assessment"
                "Bangalore India OR remote" 7 s) as Hfetch.
  fold o1 in Hfetch. apply fetch_events_no_mail in Hfetch.
  split; [| split; [exact Hstore | split]].
  - rewrite Hev. simpl. rewrite mail_calls_app, (mail_calls_none _ Hfetch).
    reflexivity.
  - exists (EvLogInfo "Starting daily job search task..." :: events o1).
    exact Hev.
  - pose proof (daily_never_raises w s) as Hres.
    unfold trigger_manual_search, try_except, ret, bind.
    destruct (daily_job_search_task w s) as [r1 s1 ev1].
    cbn [result] in Hres. subst r1. reflexivity.
Qed.

Lemma daily_insert_fails_witness :
  db_insert_one world_db_down
    (S (tick (final (search_jobs_google world_db_down
                       "Third Party Risk Assessment"
                       "Bangalore India OR remote" 7 initial_state)))) =
    Some (Exception "connection refused") /\
  mail_calls (events (daily_job_search_task world_db_down initial_state)) = [].
Proof.
  split; [reflexivity |].
  apply (daily_insert_fails world_db_down initial_state
           (Exception "connection refused")).
  reflexivity.
Defined.



(** ** Request handlers, continued *)


(** X18. The test-email endpoint answers 200 with its success message
    when the mailer returns [True] for the two sample postings and 500
    when it returns [False], the detail then being the text of the
    exception raised for the failure; it writes nothing to the store and
    issues no search request. *)
Theorem send_test_email_outcome (w : World)
  (str_http : HTTPException -> string) (s : State) :
  let run := send_test_email w str_http s in
  exists job1 job2,
    job_title job1 = "Senior Third Party Risk Analyst" /\
    job_title job2 = "Vendor Risk Manager - Remote" /\
    let mailing :=
      send_email_report w [job1; job2] EMAIL_ADDRESS
        {| tick := 4 + tick s; store := store s |} in
    (result mailing = Ok true ->
     respond (result run) = Response200 "Test email sent successfully") /\
    (result mailing = Ok false ->
     respond (result run) =
       ResponseError 500
         (str_http {| status_code := 500;
                      detail := "Failed to send test email" |})) /\
    mail_calls (events run) = mail_calls (events mailing) /\
    store (final run) = store s /\
    inserted_docs (events run) = [] /\
    filter is_get (events run) = [].
Proof.
  intros run. subst run.
  unfold send_test_email, new_JobListing, log_error, try_except, emit,
    next_tick, ret, raise, bind.
  cbn [result final events tick store].
  match goal with
  | |- context [send_email_report w [?j1; ?j2] ?r ?st] => exists j1, j2
  end.
  cbn [Nat.add].
  match goal with
  | |- context [send_email_report w [?j1; ?j2] ?r ?st] =>
      pose proof (send_email_report_never_raises w [j1; j2] r st)
        as [sent Hsent];
      pose proof (send_email_report_keeps_store w [j1; j2] r st) as Hkeep;
      pose proof (send_email_report_emits w [j1; j2] r st) as Hmail;
      destruct (send_email_report w [j1; j2] r st) as [r2 s2 ev2]
  end.
  cbn [result final events tick store job_title] in *. subst r2.
  split; [reflexivity |]. split; [reflexivity |].
  assert (Hno_get : filter is_get ev2 = []).
  { clear - Hmail. induction Hmail as [|ev evs [_ [Hev _]] _ IH]; simpl;
      [reflexivity |].
    now rewrite Hev. }
  destruct sent; cbn [result final events tick store app].
  - rewrite !app_nil_r.
    split; [reflexivity |]. split; [discriminate |].
    split; [reflexivity |]. split; [exact Hkeep |].
    split; [now apply mailer_events_no_insert | exact Hno_get].
  - split; [discriminate |]. split; [reflexivity |].
    rewrite mail_calls_app, inserted_docs_app, filter_app. simpl.
    rewrite !app_nil_r.
    split; [reflexivity |]. split; [exact Hkeep |].
    split; [now apply mailer_events_no_insert | exact Hno_get].
Qed.

(** ** backend_test.py *)

(** X19. The manual-trigger test passes on the answer of the endpoint in
    every environment, also when every request, the database and the mail
    relay fail; the storage test passes exactly when the database read
    returns. *)
Theorem trigger_test_always_passes (w : World) (s : State) :
  test_manual_search_trigger (respond (result (trigger_manual_search w s))) =
    true /\
  (test_job_results_storage (respond (result (get_job_results w s))) = true <->
   db_find w (tick s) = None).
Proof.
  split.
  - pose proof (daily_never_raises w s) as Hres.
    unfold trigger_manual_search, try_except, ret, bind.
    destruct (daily_job_search_task w s) as [r1 s1 ev1].
    cbn [result] in Hres. subst r1. reflexivity.
  - unfold get_job_results, find_recent, log_error, try_except, emit,
      next_tick, get_store, ret, raise, bind.
    cbn [result final events tick store].
    destruct (db_find w (tick s)) as [e|]; cbn; split; auto; discriminate.
Qed.


